(** * Rgb-bnb: the spots router and the booking model

    A shallow embedding of [backend/routes/api/spots.js] and of
    [db/models/booking.js].  Route handlers are functions over an explicit
    store (the four tables the router touches plus the users it joins);
    mutating handlers return the response together with the new store.
    JavaScript values keep their dynamic nature: request bodies and query
    strings are untyped, and the coercions the handlers rely on
    ([parseInt], [parseFloat], [isNaN], truthiness, relational comparison
    with a number, [toFixed]) are written out. *)

From Stdlib Require Import ZArith QArith Qround List String Ascii Bool Lia.
From Stdlib Require Import DecimalString.
From Stdlib Require DecimalPos Qcanon.
Import ListNotations.

Local Open Scope string_scope.
Local Open Scope Z_scope.

(* ================================================================== *)
(** ** JavaScript numbers and the string-to-number coercions *)
(* ================================================================== *)

Module JS.

(** A JS number.  Finite values are exact rationals: rounding to a
    double is left out, so that a text is read as the number it writes,
    also above 2^53 or closer to a bound than a double can tell.  [-0]
    is identified with [0] (both are falsy and compare equal). *)
Inductive num : Type :=
| NaN
| Fin (q : Q)
| Inf (negative : bool).

Definition of_Z (z : Z) : num := Fin (inject_Z z).

Definition Qlt_bool (a b : Q) : bool := negb (Qle_bool b a).

(** [a < b] on numbers: false as soon as one side is [NaN]. *)
Definition lt (a b : num) : bool :=
  match a, b with
  | NaN, _ | _, NaN => false
  | Fin p, Fin q => Qlt_bool p q
  | Fin _, Inf neg => negb neg
  | Inf neg, Fin _ => neg
  | Inf n1, Inf n2 => n1 && negb n2
  end.

(** [a <= b] on numbers ([b < a] is false and neither side is [NaN]). *)
Definition le (a b : num) : bool :=
  match a, b with
  | NaN, _ | _, NaN => false
  | Fin p, Fin q => Qle_bool p q
  | Fin _, Inf neg => negb neg
  | Inf neg, Fin _ => neg
  | Inf n1, Inf n2 => n1 || negb n2
  end.

Definition is_nan (a : num) : bool :=
  match a with NaN => true | _ => false end.

(** ToBoolean on a number: [NaN] and zero are falsy. *)
Definition num_truthy (a : num) : bool :=
  match a with
  | NaN => false
  | Fin q => negb (Qeq_bool q (inject_Z 0))
  | Inf _ => true
  end.

(** *** Scanning characters *)

Definition code (c : ascii) : Z := Z.of_N (N_of_ascii c).

(** StrWhiteSpaceChar restricted to ASCII: TAB, LF, VT, FF, CR, SP. *)
Definition is_ws (c : ascii) : bool :=
  let n := code c in ((9 <=? n) && (n <=? 13)) || (n =? 32).

Fixpoint skip_ws (l : list ascii) : list ascii :=
  match l with
  | c :: r => if is_ws c then skip_ws r else l
  | [] => []
  end.

Definition trim (l : list ascii) : list ascii :=
  rev (skip_ws (rev (skip_ws l))).

(** Value of a character as a digit in radix [R], if it is one. *)
Definition digit (R : Z) (c : ascii) : option Z :=
  let n := code c in
  let v := if (48 <=? n) && (n <=? 57) then n - 48
           else if (97 <=? n) && (n <=? 122) then n - 87
           else if (65 <=? n) && (n <=? 90) then n - 55
           else 36 in
  if v <? R then Some v else None.

(** Longest run of radix-[R] digits at the head of [l]: its value when
    read after the digits already in [acc], how many were read, and what
    follows. *)
Fixpoint digits (R : Z) (l : list ascii) (acc : Z) (n : nat)
  : Z * nat * list ascii :=
  match l with
  | c :: r =>
      match digit R c with
      | Some d => digits R r (acc * R + d) (S n)
      | None => (acc, n, l)
      end
  | [] => (acc, n, [])
  end.

(** An optional sign: whether it is a minus, and what follows. *)
Definition sign (l : list ascii) : bool * list ascii :=
  match l with
  | "-"%char :: r => (true, r)
  | "+"%char :: r => (false, r)
  | _ => (false, l)
  end.

Definition is_x (c : ascii) : bool := (code c =? 120) || (code c =? 88).
Definition is_o (c : ascii) : bool := (code c =? 111) || (code c =? 79).
Definition is_b (c : ascii) : bool := (code c =? 98) || (code c =? 66).
Definition is_e (c : ascii) : bool := (code c =? 101) || (code c =? 69).

(** [parseInt(s)] without a radix: leading white space, a sign, an
    optional [0x] prefix, then the longest run of digits.  [None] is
    [NaN]. *)
Definition parseInt (s : string) : option Z :=
  let (neg, l) := sign (skip_ws (list_ascii_of_string s)) in
  let (R, l) :=
    match l with
    | "0"%char :: x :: r => if is_x x then (16, r) else (10, l)
    | _ => (10, l)
    end in
  let '(v, n, _) := digits R l 0 0 in
  match n with
  | O => None
  | S _ => Some (if neg then - v else v)
  end.

(** Longest prefix of [l] that is an unsigned decimal literal
    (digits, optional fraction, optional exponent), with its value. *)
Definition scan_decimal (l : list ascii) : option (Q * list ascii) :=
  let '(i, ni, r1) := digits 10 l 0 0 in
  let '(m, nf, r2) :=
    match r1 with
    | "."%char :: r => digits 10 r i 0
    | _ => (i, O, r1)
    end in
  match (ni + nf)%nat with
  | O => None
  | S _ =>
      let '(e, r3) :=
        match r2 with
        | c :: r =>
            if is_e c then
              let (neg, r') := sign r in
              let '(ev, ne, r'') := digits 10 r' 0 0 in
              match ne with
              | O => (0, r2)
              | S _ => (if neg then - ev else ev, r'')
              end
            else (0, r2)
        | [] => (0, r2)
        end in
      Some (Qmult (inject_Z m) (Qpower (inject_Z 10) (e - Z.of_nat nf)), r3)
  end.

Fixpoint strip_prefix (p l : list ascii) : option (list ascii) :=
  match p, l with
  | [], _ => Some l
  | a :: p', b :: l' => if Ascii.eqb a b then strip_prefix p' l' else None
  | _ :: _, [] => None
  end.

Definition infinity : list ascii := list_ascii_of_string "Infinity".

Definition negate (neg : bool) (q : Q) : Q := if neg then Qopp q else q.

(** [parseFloat(s)]: leading white space, a sign, then [Infinity] or the
    longest decimal literal; anything after it is ignored. *)
Definition parseFloat (s : string) : num :=
  let (neg, l) := sign (skip_ws (list_ascii_of_string s)) in
  match strip_prefix infinity l with
  | Some _ => Inf neg
  | None =>
      match scan_decimal l with
      | Some (q, _) => Fin (negate neg q)
      | None => NaN
      end
  end.

(** A whole string of radix-[R] digits, at least one. *)
Definition all_digits (R : Z) (l : list ascii) : num :=
  match digits R l 0 0 with
  | (v, S _, []) => of_Z v
  | _ => NaN
  end.

(** ToNumber on a string (StringToNumber): white space is trimmed on both
    sides, the empty string is [0], and the rest must be, as a whole, a
    signed decimal literal, [Infinity], or an unsigned [0x], [0o] or [0b]
    literal. *)
Definition StringToNumber (s : string) : num :=
  match trim (list_ascii_of_string s) with
  | [] => of_Z 0
  | l =>
      let prefixed :=
        match l with
        | "0"%char :: c :: r =>
            if is_x c then Some (all_digits 16 r)
            else if is_o c then Some (all_digits 8 r)
            else if is_b c then Some (all_digits 2 r)
            else None
        | _ => None
        end in
      match prefixed with
      | Some n => n
      | None =>
          let (neg, l') := sign l in
          match strip_prefix infinity l' with
          | Some [] => Inf neg
          | Some (_ :: _) => NaN
          | None =>
              match scan_decimal l' with
              | Some (q, []) => Fin (negate neg q)
              | _ => NaN
              end
          end
      end
  end.

(** Whether a text starts with a radix prefix, [0x], [0o] or [0b]. *)
Definition has_radix_prefix (l : list ascii) : bool :=
  match l with
  | "0"%char :: c :: _ => is_x c || is_o c || is_b c
  | _ => false
  end.

(** *** Exceptions *)

(** What the body of a [try] comes to: it went through with a result, or
    threw an error with its message. *)
Inductive attempt (A : Type) : Type :=
| Went (a : A)
| Threw (message : string).

Arguments Went {A} a.
Arguments Threw {A} message.

Definition bind {A B : Type} (c : attempt A) (k : A -> attempt B)
  : attempt B :=
  match c with
  | Went a => k a
  | Threw m => Threw m
  end.

Notation "x <- c ;; k" := (bind c (fun x => k))
  (at level 61, c at next level, right associativity).

(** The message of the TypeError raised by reading the property [k] of
    [undefined], in the wording of V8. *)
Definition cannot_read (k : string) : string :=
  ("Cannot read properties of undefined (reading '" ++ k ++ "')")%string.

(** *** Values *)

(** The values a handler meets: what [express.json()] and the query
    parser hand over (arrays and nested objects left out), and the dates
    the store stamps on rows. *)
Inductive value : Type :=
| Undefined
| Null
| Bool (b : bool)
| Num (n : num)
| Str (s : string)
| Date (t : Z).

Definition int (z : Z) : value := Num (of_Z z).

(** ToBoolean. *)
Definition truthy (v : value) : bool :=
  match v with
  | Undefined | Null => false
  | Bool b => b
  | Num n => num_truthy n
  | Str s => negb (s =? "")%string
  | Date _ => true
  end.

(** ToNumber. *)
Definition ToNumber (v : value) : num :=
  match v with
  | Undefined => NaN
  | Null => of_Z 0
  | Bool b => of_Z (if b then 1 else 0)
  | Num n => n
  | Str s => StringToNumber s
  | Date t => of_Z t
  end.

(** [a || b]. *)
Definition or_ (a b : value) : value := if truthy a then a else b.

(** [v === undefined]. *)
Definition is_undefined (v : value) : bool :=
  match v with Undefined => true | _ => false end.

(** [isNaN(v)]. *)
Definition isNaN (v : value) : bool := is_nan (ToNumber v).

(** [v < k], [v > k] and [v <= k] against a numeric literal: the value
    is coerced with ToNumber, whatever its type. *)
Definition lt_lit (v : value) (k : Z) : bool := lt (ToNumber v) (of_Z k).
Definition gt_lit (v : value) (k : Z) : bool := lt (of_Z k) (ToNumber v).
Definition le_lit (v : value) (k : Z) : bool := le (ToNumber v) (of_Z k).

(** [v.length] of a non-nullish value: the length of a string,
    [undefined] on numbers and booleans.  A string of the embedding has
    one character for each byte, which for ASCII text is one for each
    UTF-16 unit. *)
Definition length_of (v : value) : value :=
  match v with
  | Str s => int (Z.of_nat (String.length s))
  | _ => Undefined
  end.

(** [parseFloat(v)]: a number prints and reads back as itself; [null],
    [undefined], booleans and dates print as text that is no number. *)
Definition parseFloat_value (v : value) : num :=
  match v with
  | Str s => parseFloat s
  | Num n => n
  | _ => NaN
  end.

(** [parseInt(p)] on a query parameter: an absent one reads as the text
    [undefined], which has no digits. *)
Definition parseInt_param (p : option string) : option Z :=
  match p with
  | Some s => parseInt s
  | None => None
  end.

(** [parseInt(v) || d]: [NaN] and [0] give way to the default. *)
Definition int_or (n : option Z) (d : Z) : Z :=
  match n with
  | None | Some 0 => d
  | Some k => k
  end.

Definition Z_to_string (z : Z) : string :=
  NilZero.string_of_int (Z.to_int z).

(** [n.toFixed(1)] (for magnitudes below 1e21): the sign, then the
    nearest multiple of one tenth, ties going to the larger magnitude. *)
Definition toFixed1 (n : num) : string :=
  match n with
  | NaN => "NaN"
  | Inf neg => if neg then "-Infinity" else "Infinity"
  | Fin q =>
      let neg := Qlt_bool q (inject_Z 0) in
      let a := negate neg q in
      let t := Qfloor (Qplus (Qmult a (inject_Z 10)) (Qmake 1 2)) in
      ((if neg then "-" else "") ++
       Z_to_string (t / 10) ++ "." ++ Z_to_string (t mod 10))%string
  end.

(** *** JSON documents and plain objects *)

#[local] Unset Elimination Schemes.
Inductive json : Type :=
| JVal (v : value)
| JArr (l : list json)
| JObj (o : list (string * json)).
#[local] Set Elimination Schemes.

Fixpoint assoc {A : Type} (k : string) (o : list (string * A)) : option A :=
  match o with
  | [] => None
  | (k', v) :: r => if (k =? k')%string then Some v else assoc k r
  end.

(** [o[k] = v] on an object: an existing key keeps its place, a new one
    goes last. *)
Fixpoint set {A : Type} (k : string) (v : A) (o : list (string * A))
  : list (string * A) :=
  match o with
  | [] => [(k, v)]
  | (k', v') :: r =>
      if (k =? k')%string then (k, v) :: r else (k', v') :: set k v r
  end.

(** [o.k] on a flat object of values: [undefined] when the key is absent. *)
Definition get (o : list (string * value)) (k : string) : value :=
  match assoc k o with
  | Some v => v
  | None => Undefined
  end.

Definition field (k : string) (j : json) : option json :=
  match j with
  | JObj o => assoc k o
  | _ => None
  end.

Definition elements (j : json) : list json :=
  match j with
  | JArr l => l
  | _ => []
  end.

Definition keys {A : Type} (o : list (string * A)) : list string :=
  map fst o.

Definition of_values (o : list (string * value)) : json :=
  JObj (map (fun kv => (fst kv, JVal (snd kv))) o).

End JS.

(** What [res.status(n).json(b)] sends. *)
Record Response : Type := respond { status : Z; body : JS.json }.

(* ================================================================== *)
(** ** The store: one table per model *)
(* ================================================================== *)

(** Of the five models only Booking is among the sources.  Rows keep the
    values they were created with; keys and foreign keys are integers,
    [createdAt] and [updatedAt] are instants. *)

(** Modelled from the spec: [db/models/user.js] is not among the sources;
    the fields are those the router reads off [Owner] (section 3). *)
Module User.
Record t : Type := mk { id : Z; firstName : string; lastName : string }.
End User.

(** Modelled from the spec: [db/models/spot.js] is not among the sources;
    the fields are the attributes the router selects and writes
    (section 3). *)
Module Spot.
Record t : Type := mk {
  id : Z;
  ownerId : Z;
  address : JS.value;
  city : JS.value;
  state : JS.value;
  country : JS.value;
  lat : JS.value;
  lng : JS.value;
  name : JS.value;
  description : JS.value;
  price : JS.value;
  createdAt : Z;
  updatedAt : Z
}.
End Spot.

(** Modelled from the spec: [db/models/spotimage.js] is not among the
    sources; [id], [spotId], [url] and [preview] as in section 3. *)
Module SpotImage.
Record t : Type := mk {
  id : Z;
  spotId : Z;
  url : JS.value;
  preview : JS.value
}.
End SpotImage.

(** Modelled from the spec: [db/models/review.js] is not among the
    sources; [stars] is an integer rating (section 3), with no range
    stated. *)
Module Review.
Record t : Type := mk {
  id : Z;
  spotId : Z;
  userId : Z;
  review : string;
  stars : Z
}.
End Review.

(** [Booking.init]: [spotId] and [userId] reference Spots and Users,
    [startDate] and [endDate] are dates, none of them nullable. *)
Module Booking.
Record t : Type := mk {
  id : Z;
  spotId : Z;
  userId : Z;
  startDate : Z;
  endDate : Z
}.
End Booking.

Record Store : Type := mkStore {
  users : list User.t;
  spots : list Spot.t;
  spotImages : list SpotImage.t;
  reviews : list Review.t;
  bookings : list Booking.t;
  nextSpotId : Z;
  nextSpotImageId : Z
}.

(** *** What the router reads off [sequelize] *)

(** The [sequelize] object comes from [db/models/index.js], which is not
    among the sources; what the router reads off it is a parameter.
    [Op] is [sequelize.Op]: undefined, as on an instance of Sequelize
    that the index file leaves as it is, or the table of operator
    symbols.  [refusal] is the message of the error the store raises
    when it refuses a query. *)
Module Sequelize.
Record t : Type := mk { Op : option unit; refusal : string }.
End Sequelize.

(** *** Queries *)

Module Db.
Import JS.

(** The key a text parameter denotes when the store compares it with an
    integer column: the text must read, as a whole, as a decimal number
    (no radix prefix) whose value is an integer. *)
Definition key (param : string) : option Z :=
  match trim (list_ascii_of_string param), StringToNumber param with
  | c :: l, Fin q =>
      if has_radix_prefix (c :: l) then None
      else
        let r := Qred q in
        if (Qden r =? 1)%positive then Some (Qnum r) else None
  | _, _ => None
  end.

(** [column = param] for an integer column and a text parameter. *)
Definition eq_key (param : string) (z : Z) : bool :=
  match key param with
  | Some k => z =? k
  | None => false
  end.

(** [column = v] for an integer column and a value of a [where]. *)
Definition eq_col (v : value) (z : Z) : bool :=
  match v with
  | Num (Fin q) => Qeq_bool q (inject_Z z)
  | Str s => eq_key s z
  | _ => false
  end.

(** [Spot.findByPk(spotId)]. *)
Definition findByPk (st : Store) (spotId : string) : option Spot.t :=
  find (fun s => eq_key spotId (Spot.id s)) (spots st).

(** The value of a column of Spots. *)
Definition column (s : Spot.t) (a : string) : value :=
  if (a =? "id")%string then int (Spot.id s)
  else if (a =? "ownerId")%string then int (Spot.ownerId s)
  else if (a =? "address")%string then Spot.address s
  else if (a =? "city")%string then Spot.city s
  else if (a =? "state")%string then Spot.state s
  else if (a =? "country")%string then Spot.country s
  else if (a =? "lat")%string then Spot.lat s
  else if (a =? "lng")%string then Spot.lng s
  else if (a =? "name")%string then Spot.name s
  else if (a =? "description")%string then Spot.description s
  else if (a =? "price")%string then Spot.price s
  else if (a =? "createdAt")%string then Date (Spot.createdAt s)
  else if (a =? "updatedAt")%string then Date (Spot.updatedAt s)
  else Undefined.

(** A Spot as a query returns it: [dataValues] holds the selected
    attributes and nothing else, the included models hang beside it.
    Attribute getters such as [spot.id] read [dataValues]. *)
Record Instance : Type := mkInstance {
  dataValues : list (string * value);
  SpotImages : list SpotImage.t;
  Reviews : list Review.t;
  Owner : option User.t
}.

(** [{ model: SpotImage, where: { preview: true }, required: false }] *)
Definition is_preview (i : SpotImage.t) : bool :=
  match SpotImage.preview i with
  | Bool true => true
  | _ => false
  end.

Definition images_of (st : Store) (keep : SpotImage.t -> bool) (s : Spot.t)
  : list SpotImage.t :=
  filter (fun i => (SpotImage.spotId i =? Spot.id s) && keep i)
         (spotImages st).

Definition reviews_of (st : Store) (spotId : Z) : list Review.t :=
  filter (fun r => Review.spotId r =? spotId) (reviews st).

Definition owner_of (st : Store) (s : Spot.t) : option User.t :=
  find (fun u => User.id u =? Spot.ownerId s) (users st).

(** Builds the instance of a row for the given [attributes] and
    [include]d image filter.  Rows come in table order. *)
Definition load (st : Store) (attributes : list string)
  (images : SpotImage.t -> bool) (s : Spot.t) : Instance :=
  {| dataValues := map (fun a => (a, column s a)) attributes;
     SpotImages := images_of st images s;
     Reviews := reviews_of st (Spot.id s);
     Owner := owner_of st s |}.

(** [limit] and [offset]. *)
Definition window {A : Type} (limit offset : Z) (l : list A) : list A :=
  firstn (Z.to_nat limit) (skipn (Z.to_nat offset) l).

(** The store takes [limit] and [offset] as signed 64-bit integers and
    refuses the query beyond. *)
Definition max_int64 : Z := 9223372036854775807.

Definition runs (limit offset : Z) : bool :=
  (limit <=? max_int64) && (offset <=? max_int64).

(** [Spot.findAll({ where, attributes, include, limit, offset })]: the
    promise is rejected when the store refuses the query. *)
Definition findAll (sequelize : Sequelize.t) (st : Store)
  (where_ : Spot.t -> bool) (attributes : list string)
  (images : SpotImage.t -> bool) (limit offset : Z)
  : attempt (list Instance) :=
  if runs limit offset
  then Went (map (load st attributes images)
                 (window limit offset (filter where_ (spots st))))
  else Threw (Sequelize.refusal sequelize).

(** [AVG(stars)]: SQL [NULL] over no rows, else the sum over the count,
    handed over as a number (exact here, in lowest terms). *)
Definition AVG (l : list Z) : value :=
  match l with
  | [] => Null
  | _ :: _ =>
      Num (Fin (Qred (Qmake (fold_right Z.add 0 l)
                            (Pos.of_nat (List.length l)))))
  end.

(** The reviews a [where: { spotId }] selects. *)
Definition reviews_where (st : Store) (spotId : value) : list Review.t :=
  filter (fun r => eq_col spotId (Review.spotId r)) (reviews st).

(** [Review.findOne({ where: { spotId }, attributes: [[AVG(stars),
    alias]], raw: true })]: an aggregate without grouping always yields
    its one row, an object with the single key [alias]. *)
Definition Review_avg (st : Store) (spotId : value) (alias : string)
  : option (list (string * value)) :=
  Some [(alias, AVG (map Review.stars (reviews_where st spotId)))].

(** [Review.count({ where: { spotId } })]. *)
Definition Review_count (st : Store) (spotId : value) : Z :=
  Z.of_nat (List.length (reviews_where st spotId)).

(** *** Writes *)

Definition with_spots (st : Store) (l : list Spot.t) (next : Z) : Store :=
  {| users := users st; spots := l; spotImages := spotImages st;
     reviews := reviews st; bookings := bookings st;
     nextSpotId := next; nextSpotImageId := nextSpotImageId st |}.

(** [Spot.create({...})]: the row gets the next key and both stamps. *)
Definition Spot_create (st : Store) (now : Z)
  (ownerId : Z) (address city state country lat lng name description
                 price : value) : Spot.t * Store :=
  let row := Spot.mk (nextSpotId st) ownerId address city state country
                     lat lng name description price now now in
  (row, with_spots st (spots st ++ [row]) (nextSpotId st + 1)).

(** [spot.update({...})]: the row of that key is rewritten and stamped;
    key, owner and creation stamp stay. *)
Definition Spot_update (st : Store) (now : Z) (spot : Spot.t)
  (address city state country lat lng name description price : value)
  : Spot.t * Store :=
  let row := Spot.mk (Spot.id spot) (Spot.ownerId spot) address city state
                     country lat lng name description price
                     (Spot.createdAt spot) now in
  (row,
   with_spots st
     (map (fun s => if Spot.id s =? Spot.id spot then row else s) (spots st))
     (nextSpotId st)).

(** [spot.destroy()]. *)
Definition Spot_destroy (st : Store) (spot : Spot.t) : Store :=
  with_spots st
    (filter (fun s => negb (Spot.id s =? Spot.id spot)) (spots st))
    (nextSpotId st).

(** [SpotImage.destroy({ where: { spotId } })] *)
Definition SpotImage_destroy (st : Store) (spotId : string) : Store :=
  {| users := users st; spots := spots st;
     spotImages :=
       filter (fun i => negb (eq_key spotId (SpotImage.spotId i)))
              (spotImages st);
     reviews := reviews st; bookings := bookings st;
     nextSpotId := nextSpotId st; nextSpotImageId := nextSpotImageId st |}.

(** [Review.destroy({ where: { spotId } })] *)
Definition Review_destroy (st : Store) (spotId : string) : Store :=
  {| users := users st; spots := spots st; spotImages := spotImages st;
     reviews :=
       filter (fun r => negb (eq_key spotId (Review.spotId r))) (reviews st);
     bookings := bookings st;
     nextSpotId := nextSpotId st; nextSpotImageId := nextSpotImageId st |}.

(** [Booking.destroy({ where: { spotId } })] *)
Definition Booking_destroy (st : Store) (spotId : string) : Store :=
  {| users := users st; spots := spots st; spotImages := spotImages st;
     reviews := reviews st;
     bookings :=
       filter (fun b => negb (eq_key spotId (Booking.spotId b)))
              (bookings st);
     nextSpotId := nextSpotId st; nextSpotImageId := nextSpotImageId st |}.

(** What a boolean attribute makes of the value it is set to: the
    numbers 1 and 0 and the texts [true] and [false] become booleans,
    anything else stays. *)
Definition sanitize_boolean (v : value) : value :=
  match v with
  | Num (Fin q) =>
      if Qeq_bool q (inject_Z 1) then Bool true
      else if Qeq_bool q (inject_Z 0) then Bool false
      else v
  | Str s =>
      if (s =? "true")%string then Bool true
      else if (s =? "false")%string then Bool false
      else v
  | _ => v
  end.

(** [SpotImage.create({ spotId, url, preview })]: the text [spotId] goes
    into an integer column, and the insert fails when it is no integer;
    [preview] is a boolean attribute. *)
Definition SpotImage_create (st : Store) (spotId : string)
  (url preview : value) : option (SpotImage.t * Store) :=
  match key spotId with
  | None => None
  | Some k =>
      let row := SpotImage.mk (nextSpotImageId st) k url
                              (sanitize_boolean preview) in
      Some (row,
            {| users := users st; spots := spots st;
               spotImages := spotImages st ++ [row];
               reviews := reviews st; bookings := bookings st;
               nextSpotId := nextSpotId st;
               nextSpotImageId := nextSpotImageId st + 1 |})
  end.

End Db.

(* ================================================================== *)
(** ** The router *)
(* ================================================================== *)

(** A handler without [try]/[catch] either sends a response or throws. *)
Inductive outcome : Type :=
| Sent (r : Response)
| Thrown.

(** [req.query] of [GET /spots]: each parameter is absent or a text. *)
Module Query.
Record t : Type := mk {
  page : option string;
  size : option string;
  minLat : option string;
  maxLat : option string;
  minLng : option string;
  maxLng : option string;
  minPrice : option string;
  maxPrice : option string
}.
Definition empty : t := mk None None None None None None None None.
Definition param (p : option string) : JS.value :=
  match p with
  | Some s => JS.Str s
  | None => JS.Undefined
  end.
End Query.

(** [req.body] of [POST /spots] and [PUT /spots/:spotId]; an absent
    field is [Undefined]. *)
Module Body.
Record t : Type := mk {
  address : JS.value;
  city : JS.value;
  state : JS.value;
  country : JS.value;
  lat : JS.value;
  lng : JS.value;
  name : JS.value;
  description : JS.value;
  price : JS.value
}.
End Body.

(** The [where] object [GET /spots] builds: per column, the bounds set
    so far. *)
Module Where.
Import JS.
Record Range : Type := mkRange { gte : option num; lte : option num }.
Record t : Type := mk { lat : option Range; lng : option Range;
                        price : option Range }.
Definition empty : t := mk None None None.

(** [{ ...r, [Op.lte]: x }] where [r] may be undefined. *)
Definition spread_lte (r : option Range) (x : num) : Range :=
  match r with
  | Some r' => mkRange (gte r') (Some x)
  | None => mkRange None (Some x)
  end.

(** [column >= b] and [column <= b] as the store decides them.  A
    column that is no number satisfies neither.  A bound that is [NaN]
    reaches the store as a text, which sorts after every number: no
    number is at or above it and every number is at or below it. *)
Definition at_least (b : num) (v : value) : bool :=
  match b with
  | NaN => false
  | _ => le b (ToNumber v)
  end.

Definition at_most (b : num) (v : value) : bool :=
  match b with
  | NaN => negb (is_nan (ToNumber v))
  | _ => le (ToNumber v) b
  end.

Definition sat (r : option Range) (v : value) : bool :=
  match r with
  | None => true
  | Some r' =>
      match gte r' with Some b => at_least b v | None => true end &&
      match lte r' with Some b => at_most b v | None => true end
  end.

Definition holds (w : t) (s : Spot.t) : bool :=
  sat (lat w) (Spot.lat s) && sat (lng w) (Spot.lng s) &&
  sat (price w) (Spot.price s).
End Where.

Module Routes.
Import JS.

Definition attributes : list string :=
  ["id"; "ownerId"; "address"; "city"; "state"; "country"; "lat"; "lng";
   "name"; "description"; "price"; "createdAt"; "updatedAt"].

Definition message (m : string) : json := JObj [("message", JVal (Str m))].

(** The thirteen fields every spot payload starts with, read off a
    queried instance. *)
Definition fields (spot : Db.Instance) : list (string * json) :=
  map (fun a => (a, JVal (get (Db.dataValues spot) a))) attributes.

(** The same fields read off a row just written. *)
Definition row_fields (spot : Spot.t) : list (string * json) :=
  map (fun a => (a, JVal (Db.column spot a))) attributes.

(** [spot.SpotImages.length ? spot.SpotImages[0].url : null] *)
Definition previewImage (spot : Db.Instance) : value :=
  match Db.SpotImages spot with
  | img :: _ => SpotImage.url img
  | [] => Null
  end.

(** [GET /spots/current], after [requireAuth] has set [req.user]. *)
Definition get_current (st : Store) (user : Z) : Response :=
  let spots :=
    map (Db.load st attributes Db.is_preview)
        (filter (fun s => Spot.ownerId s =? user) (spots st)) in
  let spotsList :=
    map (fun spot =>
           JObj (fields spot ++
                 [("avgRating",
                   JVal (or_ (get (Db.dataValues spot) "avgRating") Null));
                  ("previewImage", JVal (previewImage spot))]))
        spots in
  respond 200 (JObj [("Spots", JArr spotsList)]).

Definition image_json (i : SpotImage.t) : json :=
  JObj [("id", JVal (int (SpotImage.id i)));
        ("url", JVal (SpotImage.url i));
        ("preview", JVal (SpotImage.preview i))].

(** [GET /spots/:spotId].  [avgStarRating], the rendering to one
    decimal, is computed and then not used: the payload takes
    [avgRating.avgStarRating || null]. *)
Definition get_spotId (st : Store) (spotId : string) : outcome :=
  if negb (truthy (Str spotId)) || isNaN (Str spotId) then
    Sent (respond 400
            (message "Invalid spotId. It must be a valid integer."))
  else
    match Db.findByPk st spotId with
    | None => Sent (respond 404 (message "Spot couldn't be found"))
    | Some row =>
        let spot := Db.load st attributes (fun _ => true) row in
        match Db.Review_avg st (get (Db.dataValues spot) "id")
                            "avgStarRating" with
        | None => Thrown
        | Some avgRating =>
            let numReviews :=
              Db.Review_count st (get (Db.dataValues spot) "id") in
            let avgStarRating :=
              if truthy (get avgRating "avgStarRating")
              then Str (toFixed1
                          (parseFloat_value (get avgRating "avgStarRating")))
              else Null in
            match Db.Owner spot with
            | None => Thrown
            | Some owner =>
                Sent (respond 200
                  (JObj (fields spot ++
                    [("numReviews", JVal (int numReviews));
                     ("avgStarRating",
                      JVal (or_ (get avgRating "avgStarRating") Null));
                     ("SpotImages",
                      JArr (map image_json (Db.SpotImages spot)));
                     ("Owner",
                      JObj [("id", JVal (int (User.id owner)));
                            ("firstName", JVal (Str (User.firstName owner)));
                            ("lastName", JVal (Str (User.lastName owner)))])
                    ])))
            end
        end
    end.

Definition bad_request (field reason : string) : Response :=
  respond 400
    (JObj [("message", JVal (Str "Bad Request"));
           ("errors", JObj [(field, JVal (Str reason))])]).

(** One entry of the list: the average comes from a query per spot. *)
Definition list_entry (st : Store) (spot : Db.Instance) : json :=
  let avgRating :=
    Db.Review_avg st (get (Db.dataValues spot) "id") "avgRating" in
  JObj (fields spot ++
        [("avgRating",
          JVal (match avgRating with
                | Some r => get r "avgRating"
                | None => Null
                end));
         ("previewImage", JVal (previewImage spot))]).

(** [{ [sequelize.Op.gte]: x }] and [{ ...r, [sequelize.Op.lte]: x }]:
    reading [gte] or [lte] off an undefined [Op] throws. *)
Definition op_gte (sequelize : Sequelize.t) (x : num)
  : attempt Where.Range :=
  match Sequelize.Op sequelize with
  | Some _ => Went (Where.mkRange (Some x) None)
  | None => Threw (cannot_read "gte")
  end.

Definition op_lte (sequelize : Sequelize.t) (r : option Where.Range)
  (x : num) : attempt Where.Range :=
  match Sequelize.Op sequelize with
  | Some _ => Went (Where.spread_lte r x)
  | None => Threw (cannot_read "lte")
  end.

(** What the [catch] of [GET /spots] sends. *)
Definition fetch_failed (err : string) : Response :=
  respond 500
    (JObj [("message", JVal (Str "An error occurred while fetching spots."));
           ("error", JVal (Str err))]).

(** The body of the [try] of [GET /spots]. *)
Definition get_root_try (sequelize : Sequelize.t) (st : Store)
  (q : Query.t) : attempt Response :=
  let minLat := Query.param (Query.minLat q) in
  let maxLat := Query.param (Query.maxLat q) in
  let minLng := Query.param (Query.minLng q) in
  let maxLng := Query.param (Query.maxLng q) in
  let minPrice := Query.param (Query.minPrice q) in
  let maxPrice := Query.param (Query.maxPrice q) in
  let page := int_or (parseInt_param (Query.page q)) 1 in
  let size := int_or (parseInt_param (Query.size q)) 20 in
  if page <? 1 then
    Went (bad_request "page" "Page must be greater than or equal to 1")
  else if (size <? 1) || (size >? 20) then
    Went (bad_request "size" "Size must be between 1 and 20")
  else
  let where_ := Where.empty in
  if truthy minLat && (isNaN minLat || lt_lit minLat (-90) || gt_lit minLat 90)
  then Went (bad_request "minLat" "Minimum latitude is invalid")
  else
  where_ <-
    (if truthy minLat
     then r <- op_gte sequelize (parseFloat_value minLat) ;;
          Went (Where.mk (Some r) (Where.lng where_) (Where.price where_))
     else Went where_) ;;
  if truthy maxLat && (isNaN maxLat || lt_lit maxLat (-90) || gt_lit maxLat 90)
  then Went (bad_request "maxLat" "Maximum latitude is invalid")
  else
  where_ <-
    (if truthy maxLat
     then r <- op_lte sequelize (Where.lat where_)
                      (parseFloat_value maxLat) ;;
          Went (Where.mk (Some r) (Where.lng where_) (Where.price where_))
     else Went where_) ;;
  if truthy minLng &&
     (isNaN minLng || lt_lit minLng (-180) || gt_lit minLng 180)
  then Went (bad_request "minLng" "Minimum longitude is invalid")
  else
  where_ <-
    (if truthy minLng
     then r <- op_gte sequelize (parseFloat_value minLng) ;;
          Went (Where.mk (Where.lat where_) (Some r) (Where.price where_))
     else Went where_) ;;
  if truthy maxLng &&
     (isNaN maxLng || lt_lit maxLng (-180) || gt_lit maxLng 180)
  then Went (bad_request "maxLng" "Maximum longitude is invalid")
  else
  where_ <-
    (if truthy maxLng
     then r <- op_lte sequelize (Where.lng where_)
                      (parseFloat_value maxLng) ;;
          Went (Where.mk (Where.lat where_) (Some r) (Where.price where_))
     else Went where_) ;;
  if truthy minPrice && lt_lit minPrice 0
  then Went (bad_request "minPrice"
               "Minimum price must be greater than or equal to 0")
  else
  where_ <-
    (if truthy minPrice
     then r <- op_gte sequelize (parseFloat_value minPrice) ;;
          Went (Where.mk (Where.lat where_) (Where.lng where_) (Some r))
     else Went where_) ;;
  if truthy maxPrice && lt_lit maxPrice 0
  then Went (bad_request "maxPrice"
               "Maximum price must be greater than or equal to 0")
  else
  where_ <-
    (if truthy maxPrice
     then r <- op_lte sequelize (Where.price where_)
                      (parseFloat_value maxPrice) ;;
          Went (Where.mk (Where.lat where_) (Where.lng where_) (Some r))
     else Went where_) ;;
  spots <- Db.findAll sequelize st (Where.holds where_) attributes
                      Db.is_preview size ((page - 1) * size) ;;
  let spotsList := map (list_entry st) spots in
  Went (respond 200 (JObj [("Spots", JArr spotsList);
                           ("page", JVal (int page));
                           ("size", JVal (int size))])).

(** [GET /spots]: what the [try] sends, or the 500 of the [catch] with
    the message of the error. *)
Definition get_root (sequelize : Sequelize.t) (st : Store) (q : Query.t)
  : Response :=
  match get_root_try sequelize st q with
  | Went r => r
  | Threw err => fetch_failed err
  end.

(** [POST /spots/:spotId/images], after [requireAuth]. *)
Definition post_spotId_images (st : Store) (user : Z) (spotId : string)
  (url preview : value) : outcome * Store :=
  match Db.findByPk st spotId with
  | None => (Sent (respond 404 (message "Spot couldn't be found")), st)
  | Some spot =>
      if negb (Spot.ownerId spot =? user) then
        (Sent (respond 403 (message "Forbidden")), st)
      else
        match Db.SpotImage_create st spotId url preview with
        | None => (Thrown, st)
        | Some (newImage, st') =>
            (Sent (respond 201 (image_json newImage)), st')
        end
  end.

(** [if (c) errors.k = m;] *)
Definition check (c : bool) (k m : string) (errors : list (string * value))
  : list (string * value) :=
  if c then set k (Str m) errors else errors.

(** The checks [POST /spots] and [PUT /spots/:spotId] both run on the
    body, in the order of the source, filling [errors]. *)
Definition validate (b : Body.t) : list (string * value) :=
  let errors := [] in
  let errors :=
    check (negb (truthy (Body.address b)))
          "address" "Street address is required" errors in
  let errors :=
    check (negb (truthy (Body.city b))) "city" "City is required" errors in
  let errors :=
    check (negb (truthy (Body.state b))) "state" "State is required" errors in
  let errors :=
    check (negb (truthy (Body.country b)))
          "country" "Country is required" errors in
  let errors :=
    check (is_undefined (Body.lat b) || lt_lit (Body.lat b) (-90)
           || gt_lit (Body.lat b) 90)
          "lat" "Latitude must be within -90 and 90" errors in
  let errors :=
    check (is_undefined (Body.lng b) || lt_lit (Body.lng b) (-180)
           || gt_lit (Body.lng b) 180)
          "lng" "Longitude must be within -180 and 180" errors in
  let errors :=
    check (negb (truthy (Body.name b))
           || gt_lit (length_of (Body.name b)) 50)
          "name" "Name must be less than 50 characters" errors in
  let errors :=
    check (negb (truthy (Body.description b)))
          "description" "Description is required" errors in
  let errors :=
    check (is_undefined (Body.price b) || le_lit (Body.price b) 0)
          "price" "Price per day must be a positive number" errors in
  errors.

Definition validation_error (errors : list (string * value)) : Response :=
  respond 400 (JObj [("message", JVal (Str "Validation Error"));
                     ("errors", of_values errors)]).

(** [POST /spots], after [requireAuth]; [now] is the instant of the
    insert. *)
Definition post_root (st : Store) (user : Z) (now : Z) (b : Body.t)
  : Response * Store :=
  let errors := validate b in
  if (0 <? Z.of_nat (List.length (keys errors))) then
    (validation_error errors, st)
  else
    let (newSpot, st') :=
      Db.Spot_create st now user (Body.address b) (Body.city b)
        (Body.state b) (Body.country b) (Body.lat b) (Body.lng b)
        (Body.name b) (Body.description b) (Body.price b) in
    (respond 201 (JObj (row_fields newSpot)), st').

(** [PUT /spots/:spotId], after [requireAuth]. *)
Definition put_spotId (st : Store) (user : Z) (now : Z) (spotId : string)
  (b : Body.t) : Response * Store :=
  match Db.findByPk st spotId with
  | None => (respond 404 (message "Spot couldn't be found"), st)
  | Some spot =>
      if negb (Spot.ownerId spot =? user) then
        (respond 403 (message "Forbidden"), st)
      else
        let errors := validate b in
        if (0 <? Z.of_nat (List.length (keys errors))) then
          (validation_error errors, st)
        else
          let (spot', st') :=
            Db.Spot_update st now spot (Body.address b) (Body.city b)
              (Body.state b) (Body.country b) (Body.lat b) (Body.lng b)
              (Body.name b) (Body.description b) (Body.price b) in
          (respond 200 (JObj (row_fields spot')), st')
  end.

(** [DELETE /spots/:spotId], after [requireAuth]. *)
Definition delete_spotId (st : Store) (user : Z) (spotId : string)
  : Response * Store :=
  match Db.findByPk st spotId with
  | None => (respond 404 (message "Spot couldn't be found"), st)
  | Some spot =>
      if negb (Spot.ownerId spot =? user) then
        (respond 404 (message "Spot couldn't be found"), st)
      else
        let st := Db.SpotImage_destroy st spotId in
        let st := Db.Review_destroy st spotId in
        let st := Db.Booking_destroy st spotId in
        let st := Db.Spot_destroy st spot in
        (respond 200 (message "Successfully deleted"), st)
  end.

End Routes.

(* ================================================================== *)
(** ** The availability check on bookings *)
(* ================================================================== *)

Module Availability.

(** Modelled from the spec: the bookings router ([./bookings], mounted at
    [/:spotId/bookings]) is not among the sources; only the Booking model
    is.  The conflict rule and the scan below follow section 4.1: two
    ranges [[s1,e1)] and [[s2,e2)] of one spot conflict when [s1 < e2]
    and [s2 < e1]. *)
Definition conflicts (s1 e1 s2 e2 : Z) : bool := (s1 <? e2) && (s2 <? e1).

(** Modelled from the spec: when an existing booking is updated, its own
    record, named by [self], is left out of the scan. *)
Definition is_self (self : option Z) (b : Booking.t) : bool :=
  match self with
  | Some k => Booking.id b =? k
  | None => false
  end.

(** Modelled from the spec: the bookings of the spot, other than [self],
    that the candidate range conflicts with. *)
Definition scan (bs : list Booking.t) (spotId : Z) (self : option Z)
  (startDate endDate : Z) : list Booking.t :=
  filter (fun b =>
            (Booking.spotId b =? spotId) && negb (is_self self b) &&
            conflicts startDate endDate
                      (Booking.startDate b) (Booking.endDate b))
         bs.

Inductive decision : Type :=
| Accepted
| NotFound
| ValidationError
| Conflict (against : list Booking.t).

(** Modelled from the spec: the decision of section 4.1 and its failure
    conditions, in the order the section lists them. *)
Definition decide (st : Store) (spotId : Z) (self : option Z)
  (startDate endDate : Z) : decision :=
  match find (fun s => Spot.id s =? spotId) (spots st) with
  | None => NotFound
  | Some _ =>
      if endDate <=? startDate then ValidationError
      else
        match scan (bookings st) spotId self startDate endDate with
        | [] => Accepted
        | b :: r => Conflict (b :: r)
        end
  end.

End Availability.

(* ================================================================== *)
(** ** A small store to run the handlers on *)
(* ================================================================== *)

Module Sample.
Import JS.

Definition q (z : Z) (d : positive) : value := Num (Fin (Qmake z d)).

Definition cabin : Spot.t :=
  Spot.mk 1 1 (Str "12 Pine Rd") (Str "Bend") (Str "OR") (Str "USA")
          (q 4406 100) (q (-12131) 100) (Str "Cabin") (Str "Quiet cabin")
          (int 120) 1000 1000.

Definition loft : Spot.t :=
  Spot.mk 2 2 (Str "5 Main St") (Str "Reno") (Str "NV") (Str "USA")
          (q 3953 100) (q (-11981) 100) (Str "Loft") (Str "Downtown loft")
          (int 80) 2000 2000.

Definition store : Store :=
  {| users := [User.mk 1 "Ada" "King"; User.mk 2 "Bob" "Ross"];
     spots := [cabin; loft];
     spotImages :=
       [SpotImage.mk 1 1 (Str "cabin-side.png") (Bool false);
        SpotImage.mk 2 1 (Str "cabin-front.png") (Bool true);
        SpotImage.mk 3 1 (Str "cabin-lake.png") (Bool true)];
     reviews :=
       [Review.mk 1 1 2 "Lovely" 3; Review.mk 2 1 1 "Perfect" 5];
     bookings :=
       [Booking.mk 1 1 2 20240101 20240105;
        Booking.mk 2 2 1 20240103 20240107];
     nextSpotId := 3;
     nextSpotImageId := 4 |}.

(** [sequelize] as an index file that adds nothing hands it over, and as
    one that attaches the operators would. *)
Definition sequelize : Sequelize.t :=
  Sequelize.mk None "SQLITE_MISMATCH: datatype mismatch".

Definition sequelize_with_Op : Sequelize.t :=
  Sequelize.mk (Some tt) "SQLITE_MISMATCH: datatype mismatch".

(** The same store where the cabin's stars are 1, 2 and 2. *)
Definition thirds : Store :=
  {| users := users store; spots := spots store;
     spotImages := spotImages store;
     reviews := [Review.mk 1 1 2 "Bad" 1; Review.mk 2 1 2 "Poor" 2;
                 Review.mk 3 1 1 "Meh" 2];
     bookings := bookings store;
     nextSpotId := 3; nextSpotImageId := 4 |}.

Definition good_body : Body.t :=
  Body.mk (Str "9 Elm St") (Str "Boise") (Str "ID") (Str "USA")
          (q 4361 100) (q (-11620) 100) (Str "Bungalow") (Str "Sunny")
          (int 95).

End Sample.

(* ================================================================== *)
(** ** Notions the properties are stated with *)
(* ================================================================== *)

Module Notions.
Import JS Routes.

(** *** Averages *)

Definition sum (l : list Z) : Z := fold_right Z.add 0 l.

(** [q] is the arithmetic mean of [l]. *)
Definition is_mean (q : Q) (l : list Z) : Prop :=
  Qeq (Qmult q (inject_Z (Z.of_nat (List.length l)))) (inject_Z (sum l)).

(** The stars of the reviews of a spot. *)
Definition stars_of (st : Store) (s : Spot.t) : list Z :=
  map Review.stars (Db.reviews_of st (Spot.id s)).

(** Every review on file gives one star at least. *)
Definition rated (st : Store) : bool :=
  forallb (fun r => 1 <=? Review.stars r) (reviews st).

(** The specification's average rating of a spot: null without reviews,
    the arithmetic mean of the stars otherwise. *)
Definition is_average (st : Store) (s : Spot.t) (v : value) : Prop :=
  (stars_of st s = [] /\ v = Null) \/
  (stars_of st s <> [] /\
   exists m, v = Num (Fin m) /\ is_mean m (stars_of st s)).

(** *** Payloads and queries *)

(** The entries of the [Spots] array of a payload. *)
Definition Spots (r : Response) : list json :=
  match field "Spots" (body r) with
  | Some j => elements j
  | None => []
  end.

(** Queries with a single parameter. *)
Definition only_page (p : string) : Query.t :=
  Query.mk (Some p) None None None None None None None.

Definition only_size (p : string) : Query.t :=
  Query.mk None (Some p) None None None None None None.

Definition only_minLat (p : string) : Query.t :=
  Query.mk None None (Some p) None None None None None.

Definition only_minPrice (p : string) : Query.t :=
  Query.mk None None None None None None (Some p) None.

Definition only_maxPrice (p : string) : Query.t :=
  Query.mk None None None None None None None (Some p).

(** The bound a filter parameter contributes: none when it is absent or
    empty. *)
Definition bound (p : option string) : option num :=
  if truthy (Query.param p)
  then Some (parseFloat_value (Query.param p))
  else None.

(** The bounds a minimum and a maximum put on one column. *)
Definition range (lo hi : option string) : option Where.Range :=
  match bound lo, bound hi with
  | None, None => None
  | g, l => Some (Where.mkRange g l)
  end.

(** The [where] object a query that gets past the checks ends with. *)
Definition where_of (q : Query.t) : Where.t :=
  Where.mk (range (Query.minLat q) (Query.maxLat q))
           (range (Query.minLng q) (Query.maxLng q))
           (range (Query.minPrice q) (Query.maxPrice q)).

(** [parseInt(page) || 1] and [parseInt(size) || 20]. *)
Definition page_of (q : Query.t) : Z :=
  int_or (parseInt_param (Query.page q)) 1.

Definition size_of (q : Query.t) : Z :=
  int_or (parseInt_param (Query.size q)) 20.

(** Whether one of the six filters is given and not empty. *)
Definition filtered (q : Query.t) : bool :=
  truthy (Query.param (Query.minLat q)) ||
  truthy (Query.param (Query.maxLat q)) ||
  truthy (Query.param (Query.minLng q)) ||
  truthy (Query.param (Query.maxLng q)) ||
  truthy (Query.param (Query.minPrice q)) ||
  truthy (Query.param (Query.maxPrice q)).

(** *** The preview image *)

(** The specification's [previewImage] of a spot: the url of one of its
    images flagged [preview = true], or null when it has none. *)
Definition is_preview_image (st : Store) (spotId : Z) (v : value) : Prop :=
  (exists img, In img (spotImages st) /\ SpotImage.spotId img = spotId /\
               SpotImage.preview img = Bool true /\ v = SpotImage.url img) \/
  ((forall img, In img (spotImages st) -> SpotImage.spotId img = spotId ->
                SpotImage.preview img <> Bool true) /\ v = Null).

(** The cabin of the sample store as [GET /spots] and as
    [GET /spots/current] (for its owner) list it. *)
Definition cabin_listed : json :=
  list_entry Sample.store
    (Db.load Sample.store attributes Db.is_preview Sample.cabin).

Definition cabin_owned : json :=
  hd (JVal Null) (Spots (get_current Sample.store 1)).

(** *** Bodies *)

(** A field counts as missing when it is absent, null or the empty
    text. *)
Definition missing (v : value) : Prop :=
  v = Undefined \/ v = Null \/ v = Str "".

(** The invalid bodies the specification lists, with the field at
    fault. *)
Inductive invalid (b : Body.t) : string -> Prop :=
| address_missing : missing (Body.address b) -> invalid b "address"
| city_missing : missing (Body.city b) -> invalid b "city"
| state_missing : missing (Body.state b) -> invalid b "state"
| country_missing : missing (Body.country b) -> invalid b "country"
| description_missing :
    missing (Body.description b) -> invalid b "description"
| lat_outside (q : Q) :
    Body.lat b = Num (Fin q) ->
    (Qlt q (inject_Z (-90)) \/ Qlt (inject_Z 90) q) -> invalid b "lat"
| lng_outside (q : Q) :
    Body.lng b = Num (Fin q) ->
    (Qlt q (inject_Z (-180)) \/ Qlt (inject_Z 180) q) -> invalid b "lng"
| name_missing : missing (Body.name b) -> invalid b "name"
| name_too_long (s : string) :
    Body.name b = Str s -> (50 < String.length s)%nat -> invalid b "name"
| price_missing : missing (Body.price b) -> invalid b "price"
| price_not_positive (q : Q) :
    Body.price b = Num (Fin q) -> Qle q (inject_Z 0) -> invalid b "price".

(** The reason a payload gives for a field, if any. *)
Definition error_for (r : Response) (f : string) : option json :=
  match field "errors" (body r) with
  | Some e => field f e
  | None => None
  end.

(** [errors] has a reason under [k]. *)
Definition reported (k : string) (errors : list (string * value)) : Prop :=
  exists m, assoc k errors = Some (Str m).

(** A body that is fine but for its absent [name]. *)
Definition nameless_body : Body.t :=
  Body.mk (Str "9 Elm St") (Str "Boise") (Str "ID") (Str "USA")
          (Sample.q 4361 100) (Sample.q (-11620) 100) Undefined (Str "Sunny")
          (int 95).

(** *** Listing *)

(** The rows [GET /spots] selects before it cuts a page. *)
Definition selected (st : Store) (q : Query.t) : list Spot.t :=
  filter (Where.holds (where_of q)) (spots st).

(** The entry [GET /spots] makes of a row, and the [previewImage] the
    two list handlers show for it. *)
Definition listed (st : Store) (s : Spot.t) : json :=
  list_entry st (Db.load st attributes Db.is_preview s).

Definition shown (st : Store) (s : Spot.t) : value :=
  previewImage (Db.load st attributes Db.is_preview s).

(** How many rows a page holds and how many come before it. *)
Definition limit_of (q : Query.t) : nat := Z.to_nat (size_of q).

Definition offset_of (q : Query.t) : nat :=
  Z.to_nat ((page_of q - 1) * size_of q).

(** The rows of the page a query asks for, out of the rows [l]. *)
Definition page_of_rows (q : Query.t) (l : list Spot.t) : list Spot.t :=
  firstn (limit_of q) (skipn (offset_of q) l).

(** The payload of a page that is served. *)
Definition served (st : Store) (q : Query.t) : Response :=
  respond 200
    (JObj [("Spots",
            JArr (map (listed st) (page_of_rows q (selected st q))));
           ("page", JVal (int (page_of q)));
           ("size", JVal (int (size_of q)))]).

(** The test that refuses a latitude or longitude filter, and the one
    that refuses a price filter. *)
Definition bad_coordinate (p : option string) (lo hi : Z) : bool :=
  truthy (Query.param p) &&
  (isNaN (Query.param p) || lt_lit (Query.param p) lo
   || gt_lit (Query.param p) hi).

Definition bad_price (p : option string) : bool :=
  truthy (Query.param p) && lt_lit (Query.param p) 0.

(** The parameters of [GET /spots], in the order they are checked. *)
Definition parameters : list string :=
  ["page"; "size"; "minLat"; "maxLat"; "minLng"; "maxLng"; "minPrice";
   "maxPrice"].

(** A filter given as the empty text, made absent. *)
Definition blank (p : option string) : option string :=
  match p with
  | Some EmptyString => None
  | _ => p
  end.

Definition blanked (q : Query.t) : Query.t :=
  Query.mk (Query.page q) (Query.size q)
           (blank (Query.minLat q)) (blank (Query.maxLat q))
           (blank (Query.minLng q)) (blank (Query.maxLng q))
           (blank (Query.minPrice q)) (blank (Query.maxPrice q)).

(** Page two of size one. *)
Definition second_of_one : Query.t :=
  Query.mk (Some "2") (Some "1") None None None None None None.

(** The sample store with no user on file. *)
Definition orphaned : Store :=
  {| users := []; spots := spots Sample.store;
     spotImages := spotImages Sample.store;
     reviews := reviews Sample.store; bookings := bookings Sample.store;
     nextSpotId := 3; nextSpotImageId := 4 |}.

(** *** Bodies that pass *)

(** A text that is not empty; a number within bounds; a name of one to
    fifty bytes; a price that is a number above zero. *)
Definition present (v : value) : Prop :=
  exists s, v = Str s /\ s <> "".

Definition inside (lo hi : Z) (v : value) : Prop :=
  exists q, v = Num (Fin q) /\ Qle (inject_Z lo) q /\ Qle q (inject_Z hi).

Definition named (v : value) : Prop :=
  exists s, v = Str s /\ s <> "" /\ (String.length s <= 50)%nat.

Definition priced (v : value) : Prop :=
  exists q, v = Num (Fin q) /\ Qlt (inject_Z 0) q.

Definition acceptable (b : Body.t) : Prop :=
  present (Body.address b) /\ present (Body.city b) /\
  present (Body.state b) /\ present (Body.country b) /\
  inside (-90) 90 (Body.lat b) /\ inside (-180) 180 (Body.lng b) /\
  named (Body.name b) /\ present (Body.description b) /\
  priced (Body.price b).

(** A value no check of [lat], [lng] or [price] reads as a number: a
    text that is no number. *)
Definition no_number (v : value) : Prop :=
  exists s, v = Str s /\ StringToNumber s = NaN.

(** The row with the given key, owner and stamps that holds the fields
    of a body. *)
Definition row_of (key owner created updated : Z) (b : Body.t) : Spot.t :=
  Spot.mk key owner (Body.address b) (Body.city b) (Body.state b)
          (Body.country b) (Body.lat b) (Body.lng b) (Body.name b)
          (Body.description b) (Body.price b) created updated.

(** A body whose [lat] and [price] are texts that are no numbers. *)
Definition odd_body : Body.t :=
  Body.mk (Str "9 Elm St") (Str "Boise") (Str "ID") (Str "USA")
          (Str "north") Null (Str "Bungalow") (Str "Sunny") (Str "free").

(** *** Invariants of the store *)

(** Some spot has key [k]. *)
Definition refers (st : Store) (k : Z) : Prop :=
  exists s, In s (spots st) /\ Spot.id s = k.

(** Every image, review and booking belongs to a spot on file. *)
Definition integral (st : Store) : Prop :=
  (forall i, In i (spotImages st) -> refers st (SpotImage.spotId i)) /\
  (forall r, In r (reviews st) -> refers st (Review.spotId r)) /\
  (forall b, In b (bookings st) -> refers st (Booking.spotId b)).

(** Keys of spots and of images are unique and below the next key to be
    given out. *)
Definition keyed (st : Store) : Prop :=
  NoDup (map Spot.id (spots st)) /\
  (forall s, In s (spots st) -> Spot.id s < nextSpotId st) /\
  NoDup (map SpotImage.id (spotImages st)) /\
  (forall i, In i (spotImages st) -> SpotImage.id i < nextSpotImageId st).

(** *** Keys and numbers written in decimal *)

(** The characters of a run of decimal digits, and the number they
    spell when read after the digits already in [acc]. *)
Definition chars_of (u : Decimal.uint) : list ascii :=
  list_ascii_of_string (NilEmpty.string_of_uint u).

Fixpoint spelled (u : Decimal.uint) (acc : Z) : Z :=
  match u with
  | Decimal.Nil => acc
  | Decimal.D0 u' => spelled u' (acc * 10 + 0)
  | Decimal.D1 u' => spelled u' (acc * 10 + 1)
  | Decimal.D2 u' => spelled u' (acc * 10 + 2)
  | Decimal.D3 u' => spelled u' (acc * 10 + 3)
  | Decimal.D4 u' => spelled u' (acc * 10 + 4)
  | Decimal.D5 u' => spelled u' (acc * 10 + 5)
  | Decimal.D6 u' => spelled u' (acc * 10 + 6)
  | Decimal.D7 u' => spelled u' (acc * 10 + 7)
  | Decimal.D8 u' => spelled u' (acc * 10 + 8)
  | Decimal.D9 u' => spelled u' (acc * 10 + 9)
  end.

(** The test [StringToNumber] makes for a radix prefix. *)
Definition radix_prefix (l : list ascii) : option num :=
  match l with
  | "0"%char :: c :: r =>
      if is_x c then Some (all_digits 16 r)
      else if is_o c then Some (all_digits 8 r)
      else if is_b c then Some (all_digits 2 r)
      else None
  | _ => None
  end.

(** The query with the given [page] and [size] and no filter. *)
Definition paged (page size : string) : Query.t :=
  Query.mk (Some page) (Some size) None None None None None None.

End Notions.

(* ================================================================== *)
(** ** Facts about the coercions and the store layer *)
(* ================================================================== *)

Module Facts.
Import JS Notions.

Lemma Qeq_bool_inject_Z (a b : Z) :
  Qeq_bool (inject_Z a) (inject_Z b) = (a =? b).
Proof.
  unfold Qeq_bool; simpl. now rewrite !Z.mul_1_r.
Qed.

Lemma of_Z_inj (a b : Z) : of_Z a = of_Z b -> a = b.
Proof. unfold of_Z, inject_Z; congruence. Qed.

Lemma int_inj (a b : Z) : int a = int b -> a = b.
Proof. unfold int; intros H; apply of_Z_inj; congruence. Qed.

Lemma eq_key_iff (p : string) (z : Z) :
  Db.eq_key p z = true <-> Db.key p = Some z.
Proof.
  unfold Db.eq_key. destruct (Db.key p) as [k|].
  - rewrite Z.eqb_eq. split; congruence.
  - split; discriminate.
Qed.

(** A parameter that denotes a key passes the guard of
    [GET /spots/:spotId]. *)
Lemma key_passes_guard (p : string) (k : Z) :
  Db.key p = Some k -> truthy (Str p) = true /\ isNaN (Str p) = false.
Proof.
  unfold Db.key, isNaN; simpl.
  destruct p as [|c p]; [discriminate|].
  destruct (trim _); [discriminate|].
  destruct (StringToNumber _); try discriminate.
  intros _; split; reflexivity.
Qed.

Lemma findByPk_some (st : Store) (p : string) (s : Spot.t) :
  Db.findByPk st p = Some s -> In s (spots st) /\ Db.key p = Some (Spot.id s).
Proof.
  unfold Db.findByPk; intros H.
  apply find_some in H. now rewrite eq_key_iff in H.
Qed.

Lemma eq_col_int (z z' : Z) : Db.eq_col (int z) z' = (z' =? z).
Proof.
  unfold Db.eq_col, int, of_Z. rewrite Qeq_bool_inject_Z. apply Z.eqb_sym.
Qed.

Lemma reviews_where_int (st : Store) (z : Z) :
  Db.reviews_where st (int z) = Db.reviews_of st z.
Proof.
  unfold Db.reviews_where, Db.reviews_of.
  apply filter_ext; intros r. apply eq_col_int.
Qed.

(** The instance of a row carries the row's key under [id]. *)
Lemma load_id (st : Store) (keep : SpotImage.t -> bool) (s : Spot.t) :
  get (Db.dataValues (Db.load st Routes.attributes keep s)) "id"
  = int (Spot.id s).
Proof. reflexivity. Qed.

Lemma In_firstn {A : Type} (n : nat) (l : list A) (x : A) :
  In x (firstn n l) -> In x l.
Proof.
  revert l; induction n as [|n IH]; intros [|a l]; simpl; try tauto.
  intros [E|H]; [now left|right; auto].
Qed.

Lemma In_skipn {A : Type} (n : nat) (l : list A) (x : A) :
  In x (skipn n l) -> In x l.
Proof.
  revert l; induction n as [|n IH]; intros [|a l]; simpl; auto.
Qed.

Lemma Forall2_map_self {A B : Type} (P : B -> A -> Prop) (f : A -> B)
  (l : list A) :
  (forall x, In x l -> P (f x) x) -> Forall2 P (map f l) l.
Proof.
  induction l as [|a l IH]; intros H; simpl; constructor.
  - apply H; now left.
  - apply IH; intros x I; apply H; now right.
Qed.

Lemma window_incl {A : Type} (limit offset : Z) (l : list A) (x : A) :
  In x (Db.window limit offset l) -> In x l.
Proof.
  unfold Db.window; intros H.
  eapply In_skipn, In_firstn, H.
Qed.

(** *** Objects *)

Lemma assoc_set_same {A : Type} (k : string) (v : A) (o : list (string * A)) :
  assoc k (set k v o) = Some v.
Proof.
  induction o as [|[k' v'] o IH]; simpl.
  - now rewrite String.eqb_refl.
  - destruct (k =? k')%string eqn:E; simpl.
    + now rewrite String.eqb_refl.
    + now rewrite E.
Qed.

Lemma assoc_set_other {A : Type} (k k' : string) (v : A)
  (o : list (string * A)) :
  k <> k' -> assoc k (set k' v o) = assoc k o.
Proof.
  intros N. induction o as [|[k0 v0] o IH]; simpl.
  - apply String.eqb_neq in N. now rewrite N.
  - destruct (k' =? k0)%string eqn:E; simpl.
    + apply String.eqb_eq in E; subst k0.
      apply String.eqb_neq in N. now rewrite N.
    + now rewrite IH.
Qed.

Lemma assoc_of_values (k : string) (o : list (string * value)) :
  field k (of_values o) = option_map JVal (assoc k o).
Proof.
  unfold of_values; simpl.
  induction o as [|[k' v'] o IH]; simpl; [reflexivity|].
  now destruct (k =? k')%string.
Qed.

(** *** The average *)

Lemma AVG_nil : Db.AVG [] = Null.
Proof. reflexivity. Qed.

Lemma quotient_times_count (s : Z) (m : nat) :
  Qeq (Qmult (Qmake s (Pos.of_nat (S m))) (inject_Z (Z.of_nat (S m))))
      (inject_Z s).
Proof.
  unfold Qeq, Qmult, inject_Z. cbn [Qnum Qden].
  rewrite Pos.mul_1_r, Z.mul_1_r.
  now rewrite <- Pos.of_nat_succ, Zpos_P_of_succ_nat, <- Nat2Z.inj_succ.
Qed.

Lemma AVG_mean (l : list Z) :
  l <> [] -> exists q, Db.AVG l = Num (Fin q) /\ is_mean q l.
Proof.
  destruct l as [|x l]; [congruence|intros _].
  eexists; split; [reflexivity|].
  unfold is_mean. rewrite Qred_correct.
  apply quotient_times_count.
Qed.

Lemma AVG_truthy (l : list Z) :
  l <> [] -> sum l <> 0 -> truthy (Db.AVG l) = true.
Proof.
  destruct l as [|x l]; [congruence|intros _ N].
  unfold Db.AVG, truthy, num_truthy.
  apply negb_true_iff, not_true_is_false; intros E.
  apply Qeq_bool_iff in E. rewrite Qred_correct in E.
  unfold Qeq, inject_Z in E; simpl in E.
  rewrite Z.mul_1_r in E. exact (N E).
Qed.

End Facts.

(* ================================================================== *)
(** ** Properties of the router *)
(* ================================================================== *)

Module Spec.
Import JS Routes Notions Facts.

(** *** Booking conflicts *)

(** C1.  Two ranges [[s1,e1)] and [[s2,e2)] conflict exactly when
    [s1 < e2] and [s2 < e1]; a range that ends where the other starts
    conflicts with it in neither order; and the scan returns exactly the
    bookings of the spot that conflict with the candidate range, the
    record being updated (when there is one) left out. *)
Theorem booking_conflict_rule :
  (forall s1 e1 s2 e2 : Z,
      Availability.conflicts s1 e1 s2 e2 = true <-> s1 < e2 /\ s2 < e1) /\
  (forall s m e : Z,
      Availability.conflicts s m m e = false /\
      Availability.conflicts m e s m = false) /\
  (forall (bs : list Booking.t) (spotId : Z) (self : option Z) (s e : Z)
          (b : Booking.t),
      In b (Availability.scan bs spotId self s e) <->
      In b bs /\ Booking.spotId b = spotId /\ self <> Some (Booking.id b) /\
      s < Booking.endDate b /\ Booking.startDate b < e).
Proof.
  split; [|split].
  - intros; unfold Availability.conflicts.
    now rewrite andb_true_iff, !Z.ltb_lt.
  - intros; unfold Availability.conflicts.
    rewrite Z.ltb_irrefl. now rewrite andb_false_r.
  - intros; unfold Availability.scan, Availability.conflicts.
    rewrite filter_In, !andb_true_iff, negb_true_iff, !Z.ltb_lt, Z.eqb_eq.
    assert (S : Availability.is_self self b = false
                <-> self <> Some (Booking.id b)).
    { destruct self as [k|]; simpl.
      - rewrite Z.eqb_neq. split; congruence.
      - split; [discriminate|reflexivity]. }
    rewrite S. tauto.
Qed.

(** The two boundary cases of the specification, on one spot. *)
Example adjacent_bookings_do_not_conflict :
  Availability.conflicts 20240101 20240105 20240105 20240110 = false /\
  Availability.conflicts 20240101 20240105 20240103 20240107 = true.
Proof. split; reflexivity. Qed.

(** Moving a booking within its own old range is accepted: only the
    other bookings of the spot are scanned. *)
Example update_ignores_own_record :
  Availability.decide Sample.store 1 (Some 1) 20240102 20240106
  = Availability.Accepted /\
  Availability.decide Sample.store 1 None 20240102 20240106
  = Availability.Conflict [Booking.mk 1 1 2 20240101 20240105].
Proof. split; reflexivity. Qed.

(** *** Pagination of [GET /spots] *)

(** Without [page] and [size] the first page of twenty is served. *)
Lemma pagination_defaults (sequelize : Sequelize.t) (st : Store) :
  let r := get_root sequelize st Query.empty in
  status r = 200 /\
  field "page" (body r) = Some (JVal (int 1)) /\
  field "size" (body r) = Some (JVal (int 20)).
Proof. repeat split. Qed.

(** A [page] that reads as a negative integer is refused, naming
    [page]. *)
Lemma negative_page_rejected (sequelize : Sequelize.t) (st : Store)
  (q : Query.t) (n : Z) :
  parseInt_param (Query.page q) = Some n -> n < 0 ->
  get_root sequelize st q
  = bad_request "page" "Page must be greater than or equal to 1".
Proof.
  intros P N. unfold get_root, get_root_try. rewrite P.
  destruct n as [|n|n]; try lia. reflexivity.
Qed.

(** With an acceptable [page], a [size] that reads as a negative integer
    or as one above twenty is refused, naming [size]. *)
Lemma size_out_of_range_rejected (sequelize : Sequelize.t) (st : Store)
  (q : Query.t) (n : Z) :
  1 <= int_or (parseInt_param (Query.page q)) 1 ->
  parseInt_param (Query.size q) = Some n -> n < 0 \/ 20 < n ->
  get_root sequelize st q
  = bad_request "size" "Size must be between 1 and 20".
Proof.
  intros P S N. unfold get_root, get_root_try. rewrite S.
  apply Z.ltb_ge in P. rewrite P.
  assert (E : int_or (Some n) 20 = n) by (destruct n; simpl; auto; lia).
  rewrite E.
  assert (C : (n <? 1) || (n >? 20) = true).
  { apply orb_true_iff. rewrite Z.ltb_lt, Z.gtb_gt. lia. }
  now rewrite C.
Qed.

(** C2.  [page=0] is not refused: [parseInt(page) || 1] turns the zero
    into the default before [page < 1] is tested, so the first page is
    served; [size=0] likewise becomes twenty.  ([page=-1] and [size=25]
    are refused, see [negative_page_rejected] and
    [size_out_of_range_rejected].) *)
Theorem page_zero_is_served (sequelize : Sequelize.t) (st : Store) :
  let r := get_root sequelize st (only_page "0") in
  let r' := get_root sequelize st (only_size "0") in
  (status r = 200 /\ field "page" (body r) = Some (JVal (int 1))) /\
  (status r' = 200 /\ field "size" (body r') = Some (JVal (int 20))).
Proof. repeat split. Qed.

Example size_25_rejected (sequelize : Sequelize.t) (st : Store) :
  get_root sequelize st (only_size "25")
  = bad_request "size" "Size must be between 1 and 20".
Proof. reflexivity. Qed.

(** *** Range filters of [GET /spots] *)

(** C9.  A price filter that is no number is not refused: the price
    tests lack the [isNaN] test the latitude and longitude tests have,
    and [minPrice < 0] is false on such a text.  The handler goes on to
    build the condition: with [sequelize.Op] undefined that throws, and
    the answer is the 500 of the [catch]; with the operators at hand the
    query runs and the answer is 200.  In neither case is it the 400
    that the same text gets as [minLat]. *)
Theorem non_numeric_price_is_not_refused (sequelize : Sequelize.t)
  (st : Store) :
  let lo := get_root sequelize st (only_minPrice "abc") in
  let hi := get_root sequelize st (only_maxPrice "abc") in
  (Sequelize.Op sequelize = None ->
   lo = fetch_failed (cannot_read "gte") /\
   hi = fetch_failed (cannot_read "lte") /\
   status lo = 500 /\ status hi = 500) /\
  (Sequelize.Op sequelize <> None -> status lo = 200 /\ status hi = 200) /\
  get_root sequelize st (only_minLat "abc")
  = bad_request "minLat" "Minimum latitude is invalid".
Proof.
  cbv zeta. unfold get_root, get_root_try, op_gte, op_lte; simpl.
  destruct (Sequelize.Op sequelize) as [[]|].
  - split; [discriminate|]. split; [|reflexivity]. intros _; split; reflexivity.
  - split; [|split; [congruence|reflexivity]].
    intros _; repeat split.
Qed.

Lemma non_numeric_price_is_not_refused_witness :
  (get_root Sample.sequelize Sample.store (only_minPrice "abc")
   = fetch_failed (cannot_read "gte") /\
   get_root Sample.sequelize Sample.store (only_maxPrice "abc")
   = fetch_failed (cannot_read "lte") /\
   status (get_root Sample.sequelize Sample.store (only_minPrice "abc"))
   = 500 /\
   status (get_root Sample.sequelize Sample.store (only_maxPrice "abc"))
   = 500) /\
  (status (get_root Sample.sequelize_with_Op Sample.store
             (only_minPrice "abc")) = 200 /\
   status (get_root Sample.sequelize_with_Op Sample.store
             (only_maxPrice "abc")) = 200).
Proof.
  split.
  - destruct (non_numeric_price_is_not_refused Sample.sequelize
                Sample.store) as (A & _ & _).
    apply A. reflexivity.
  - destruct (non_numeric_price_is_not_refused Sample.sequelize_with_Op
                Sample.store) as (_ & B & _).
    apply B. discriminate.
Defined.

(** *** [GET /spots/current] *)

(** C10.  Every entry [GET /spots/current] returns, one per spot of the
    user, has [avgRating] null, whatever the reviews: [avgRating] is not
    among the attributes the query selects, so [dataValues] has no such
    key and [|| null] takes over. *)
Theorem current_avgRating_null (st : Store) (user : Z) :
  let r := get_current st user in
  status r = 200 /\
  List.length (Spots r)
  = List.length (filter (fun s => Spot.ownerId s =? user) (spots st)) /\
  Forall (fun e => field "avgRating" e = Some (JVal Null)) (Spots r).
Proof.
  unfold get_current, Spots; simpl.
  split; [reflexivity|split].
  - now rewrite !length_map.
  - apply Forall_forall; intros e H.
    apply in_map_iff in H as (spot & <- & H).
    apply in_map_iff in H as (s & <- & _). reflexivity.
Qed.

(** *** What [GET /spots] comes to *)

Tactic Notation "refused" constr(f) :=
  solve [left; exists f; eexists; split; [simpl; tauto|reflexivity]].

Ltac thrown :=
  solve [right; left; split; [reflexivity|];
         split; [reflexivity|eexists; reflexivity]].

(** One of four: a parameter is refused; the condition cannot be built
    because [sequelize.Op] is undefined and a filter is given; the store
    refuses the query; or the page is served. *)
Lemma get_root_outcome (sequelize : Sequelize.t) (st : Store)
  (q : Query.t) :
  (exists f m, In f parameters /\
               get_root sequelize st q = bad_request f m) \/
  (Sequelize.Op sequelize = None /\ filtered q = true /\
   exists k, get_root sequelize st q = fetch_failed (cannot_read k)) \/
  (Db.runs (size_of q) ((page_of q - 1) * size_of q) = false /\
   get_root sequelize st q = fetch_failed (Sequelize.refusal sequelize)) \/
  (1 <= page_of q /\ 1 <= size_of q <= 20 /\
   (filtered q = false \/ Sequelize.Op sequelize <> None) /\
   get_root sequelize st q = served st q).
Proof.
  unfold get_root, get_root_try, served, page_of_rows, selected, listed,
    limit_of, offset_of, where_of, range, bound, filtered, op_gte, op_lte,
    Db.findAll, Db.window; cbv zeta.
  fold (page_of q) (size_of q).
  fold (bad_coordinate (Query.minLat q) (-90) 90).
  fold (bad_coordinate (Query.maxLat q) (-90) 90).
  fold (bad_coordinate (Query.minLng q) (-180) 180).
  fold (bad_coordinate (Query.maxLng q) (-180) 180).
  fold (bad_price (Query.minPrice q)).
  fold (bad_price (Query.maxPrice q)).
  rewrite <- map_map.
  destruct (page_of q <? 1) eqn:P; [refused "page"|].
  destruct ((size_of q <? 1) || (size_of q >? 20)) eqn:S; [refused "size"|].
  apply Z.ltb_ge in P. apply orb_false_iff in S as [Z1 Z2].
  apply Z.ltb_ge in Z1. rewrite Z.gtb_ltb in Z2. apply Z.ltb_ge in Z2.
  destruct (Sequelize.Op sequelize) as [[]|].
  - destruct (bad_coordinate (Query.minLat q) (-90) 90); [refused "minLat"|].
    destruct (truthy (Query.param (Query.minLat q)));
      (destruct (bad_coordinate (Query.maxLat q) (-90) 90);
       [refused "maxLat"|]);
      destruct (truthy (Query.param (Query.maxLat q)));
      (destruct (bad_coordinate (Query.minLng q) (-180) 180);
       [refused "minLng"|]);
      destruct (truthy (Query.param (Query.minLng q)));
      (destruct (bad_coordinate (Query.maxLng q) (-180) 180);
       [refused "maxLng"|]);
      destruct (truthy (Query.param (Query.maxLng q)));
      (destruct (bad_price (Query.minPrice q)); [refused "minPrice"|]);
      destruct (truthy (Query.param (Query.minPrice q)));
      (destruct (bad_price (Query.maxPrice q)); [refused "maxPrice"|]);
      destruct (truthy (Query.param (Query.maxPrice q)));
      right; right;
      (destruct (Db.runs (size_of q) ((page_of q - 1) * size_of q));
       [right; split; [exact P|]; split; [lia|];
        split; [right; discriminate|reflexivity]
       |left; split; reflexivity]).
  - destruct (bad_coordinate (Query.minLat q) (-90) 90); [refused "minLat"|].
    destruct (truthy (Query.param (Query.minLat q))); [thrown|].
    destruct (bad_coordinate (Query.maxLat q) (-90) 90); [refused "maxLat"|].
    destruct (truthy (Query.param (Query.maxLat q))); [thrown|].
    destruct (bad_coordinate (Query.minLng q) (-180) 180);
      [refused "minLng"|].
    destruct (truthy (Query.param (Query.minLng q))); [thrown|].
    destruct (bad_coordinate (Query.maxLng q) (-180) 180);
      [refused "maxLng"|].
    destruct (truthy (Query.param (Query.maxLng q))); [thrown|].
    destruct (bad_price (Query.minPrice q)); [refused "minPrice"|].
    destruct (truthy (Query.param (Query.minPrice q))); [thrown|].
    destruct (bad_price (Query.maxPrice q)); [refused "maxPrice"|].
    destruct (truthy (Query.param (Query.maxPrice q))); [thrown|].
    right; right.
    destruct (Db.runs (size_of q) ((page_of q - 1) * size_of q)).
    + right. split; [exact P|]. split; [lia|].
      split; [left; reflexivity|reflexivity].
    + left. split; reflexivity.
Qed.

(** What a request that is answered 200 is answered with. *)
Lemma get_root_200 (sequelize : Sequelize.t) (st : Store) (q : Query.t) :
  status (get_root sequelize st q) = 200 ->
  1 <= size_of q <= 20 /\ get_root sequelize st q = served st q.
Proof.
  intros S.
  destruct (get_root_outcome sequelize st q)
    as [(f & m & _ & E)|[(_ & _ & k & E)|[(_ & E)|(_ & Z & _ & E)]]];
    try (rewrite E in S; discriminate S).
  now split.
Qed.

Lemma Spots_served (st : Store) (q : Query.t) :
  Spots (served st q) = map (listed st) (page_of_rows q (selected st q)).
Proof. reflexivity. Qed.

Lemma holds_empty (l : list Spot.t) :
  filter (Where.holds Where.empty) l = l.
Proof. induction l as [|s l IH]; simpl; [reflexivity|now rewrite IH]. Qed.

(** Without a filter every row is selected. *)
Lemma selected_unfiltered (st : Store) (q : Query.t) :
  filtered q = false -> selected st q = spots st.
Proof.
  unfold filtered, selected, where_of, range, bound. intros F.
  repeat (apply orb_false_iff in F as [F ?]).
  repeat match goal with H : truthy _ = false |- _ => rewrite H; clear H end.
  apply holds_empty.
Qed.

(** What a request without filters that is answered 200 lists. *)
Lemma get_root_unfiltered (sequelize : Sequelize.t) (st : Store)
  (q : Query.t) :
  filtered q = false -> status (get_root sequelize st q) = 200 ->
  Spots (get_root sequelize st q)
  = map (listed st) (page_of_rows q (spots st)).
Proof.
  intros F S. destruct (get_root_200 sequelize st q S) as [_ E].
  now rewrite E, Spots_served, selected_unfiltered.
Qed.

(** A latitude or longitude filter that is not a number, or lies outside
    the range of its coordinate, is refused naming that filter (shown
    for [minLat]; pagination must have passed). *)
Lemma invalid_minLat_rejected (sequelize : Sequelize.t) (st : Store)
  (q : Query.t) (s : string) :
  1 <= page_of q -> 1 <= size_of q <= 20 ->
  Query.minLat q = Some s -> s <> "" ->
  StringToNumber s = NaN \/ lt (StringToNumber s) (of_Z (-90)) = true
  \/ lt (of_Z 90) (StringToNumber s) = true ->
  get_root sequelize st q
  = bad_request "minLat" "Minimum latitude is invalid".
Proof.
  intros P [S1 S2] M N B. unfold get_root, get_root_try; cbv zeta.
  fold (page_of q) (size_of q).
  apply Z.ltb_ge in P. rewrite P.
  assert (C : (size_of q <? 1) || (size_of q >? 20) = false).
  { apply orb_false_iff; split; [now apply Z.ltb_ge|].
    rewrite Z.gtb_ltb. now apply Z.ltb_ge. }
  rewrite C, M. cbn [Query.param truthy].
  apply String.eqb_neq in N. rewrite N. cbn [negb andb].
  unfold isNaN, lt_lit, gt_lit. cbn [ToNumber].
  destruct B as [->|[->| ->]]; try reflexivity.
  - now rewrite orb_true_r.
  - now rewrite !orb_true_r.
Qed.

(** With [sequelize.Op] undefined, a request with a filter that passes
    the checks is answered 500. *)
Lemma filter_without_Op (sequelize : Sequelize.t) (st : Store)
  (q : Query.t) :
  Sequelize.Op sequelize = None -> filtered q = true ->
  status (get_root sequelize st q) = 400 \/
  status (get_root sequelize st q) = 500.
Proof.
  intros O F.
  destruct (get_root_outcome sequelize st q)
    as [(f & m & _ & E)|[(_ & _ & k & E)|[(_ & E)|(_ & _ & [N|N] & E)]]];
    try (rewrite E; simpl; tauto); congruence.
Qed.

(** The rows behind the entries of the list. *)
Lemma get_root_entries (sequelize : Sequelize.t) (st : Store)
  (q : Query.t) (e : json) :
  In e (Spots (get_root sequelize st q)) ->
  exists s, In s (spots st) /\ e = listed st s.
Proof.
  destruct (get_root_outcome sequelize st q)
    as [(f & m & _ & E)|[(_ & _ & k & E)|[(_ & E)|(_ & _ & _ & E)]]];
    rewrite E; try (unfold Spots; simpl; tauto).
  rewrite Spots_served. intros H.
  apply in_map_iff in H as (s & <- & H).
  apply In_firstn, In_skipn, filter_In in H. exists s; tauto.
Qed.

(** The rows behind the entries of [GET /spots/current]. *)
Lemma get_current_entries (st : Store) (user : Z) (e : json) :
  In e (Spots (get_current st user)) ->
  exists s, In s (spots st) /\ Spot.ownerId s = user /\
            field "id" e = Some (JVal (int (Spot.id s))) /\
            field "previewImage" e = Some (JVal (shown st s)).
Proof.
  unfold get_current, Spots; simpl. intros H.
  apply in_map_iff in H as (spot & <- & H).
  apply in_map_iff in H as (s & <- & H).
  apply filter_In in H as [H O]. apply Z.eqb_eq in O.
  exists s; repeat split; assumption.
Qed.

Lemma list_entry_fields (st : Store) (s : Spot.t) :
  field "id" (listed st s) = Some (JVal (int (Spot.id s))) /\
  field "avgRating" (listed st s)
  = Some (JVal (Db.AVG (stars_of st s))) /\
  field "previewImage" (listed st s) = Some (JVal (shown st s)).
Proof.
  repeat split.
  unfold listed, list_entry, Db.Review_avg, stars_of.
  rewrite load_id, reviews_where_int.
  reflexivity.
Qed.

(** *** The average rating *)

(** What [GET /spots/:spotId] sends for a spot that is found and whose
    owner is on file: the raw aggregate, or null when it is falsy. *)
Lemma get_spotId_found (st : Store) (spotId : string) (row : Spot.t)
  (owner : User.t) :
  Db.findByPk st spotId = Some row -> Db.owner_of st row = Some owner ->
  exists r, get_spotId st spotId = Sent r /\ status r = 200 /\
    field "numReviews" (body r)
    = Some (JVal (int (Z.of_nat (List.length (stars_of st row))))) /\
    field "avgStarRating" (body r)
    = Some (JVal (or_ (Db.AVG (stars_of st row)) Null)).
Proof.
  intros F O. unfold get_spotId.
  destruct (findByPk_some _ _ _ F) as [_ K].
  destruct (key_passes_guard _ _ K) as [T N]. rewrite T, N, F.
  cbn [negb orb Db.Review_avg]. cbv zeta.
  change (Db.Owner (Db.load st attributes (fun _ => true) row))
    with (Db.owner_of st row).
  rewrite O. eexists; split; [reflexivity|].
  unfold Db.Review_count, stars_of.
  rewrite load_id, reviews_where_int, length_map.
  repeat split.
Qed.

Lemma sum_positive (l : list Z) :
  (forall x, In x l -> 1 <= x) -> l <> [] -> 0 < sum l.
Proof.
  induction l as [|x l IH]; [congruence|intros H _].
  assert (X : 1 <= x) by (apply H; now left).
  destruct l as [|y l]; [simpl; lia|].
  assert (0 < sum (y :: l)).
  { apply IH; [intros z I; apply H; now right|discriminate]. }
  change (sum (x :: y :: l)) with (x + sum (y :: l)). lia.
Qed.

(** Stars of one or more do not sum to zero. *)
Lemma rated_sum (st : Store) (s : Spot.t) :
  rated st = true -> stars_of st s <> [] -> sum (stars_of st s) <> 0.
Proof.
  intros R NE.
  assert (0 < sum (stars_of st s)); [|lia].
  apply sum_positive; [|exact NE].
  intros x I. unfold stars_of, Db.reviews_of in I.
  apply in_map_iff in I as (r & <- & I). apply filter_In in I as [I _].
  unfold rated in R. rewrite forallb_forall in R.
  apply Z.leb_le. now apply R.
Qed.

(** The aggregate of the list view is the specification's average. *)
Lemma AVG_average (st : Store) (s : Spot.t) :
  is_average st s (Db.AVG (stars_of st s)).
Proof.
  destruct (stars_of st s) as [|x l] eqn:E.
  - left. split; [exact E|reflexivity].
  - right. rewrite <- E. split; [rewrite E; discriminate|].
    apply AVG_mean. rewrite E; discriminate.
Qed.

(** So is what the detail view makes of it, when no mean is zero. *)
Lemma or_null_average (st : Store) (s : Spot.t) :
  rated st = true -> is_average st s (or_ (Db.AVG (stars_of st s)) Null).
Proof.
  intros R. destruct (stars_of st s) as [|x l] eqn:E.
  - left. split; [exact E|reflexivity].
  - right. rewrite <- E.
    assert (NE : stars_of st s <> []) by (rewrite E; discriminate).
    split; [exact NE|].
    unfold or_. rewrite (AVG_truthy _ NE (rated_sum st s R NE)).
    now apply AVG_mean.
Qed.

(** C3.  With stars of one or more, the average rating of a spot is
    null when it has no review and the arithmetic mean of the stars
    otherwise, both as [avgStarRating] in the detail view of a spot that
    is found with its owner, and as [avgRating] in the list: a list
    without filters that is served has one entry for each row of the
    page, in order, with the key and the average of that row; and
    without any parameter the list is served. *)
Theorem average_rating (sequelize : Sequelize.t) (st : Store) :
  rated st = true ->
  (forall spotId row owner,
      Db.findByPk st spotId = Some row -> Db.owner_of st row = Some owner ->
      exists r v, get_spotId st spotId = Sent r /\ status r = 200 /\
        field "avgStarRating" (body r) = Some (JVal v) /\
        is_average st row v) /\
  (forall q,
      filtered q = false -> status (get_root sequelize st q) = 200 ->
      Forall2 (fun e s =>
                 field "id" e = Some (JVal (int (Spot.id s))) /\
                 exists v, field "avgRating" e = Some (JVal v) /\
                           is_average st s v)
              (Spots (get_root sequelize st q))
              (page_of_rows q (spots st))) /\
  status (get_root sequelize st Query.empty) = 200.
Proof.
  intros R. split; [|split; [|reflexivity]].
  - intros spotId row owner F O.
    destruct (get_spotId_found st spotId row owner F O)
      as (r & E & S & _ & A).
    exists r; eexists; repeat split; eauto.
    now apply or_null_average.
  - intros q F S. rewrite (get_root_unfiltered sequelize st q F S).
    apply Forall2_map_self; intros s _.
    destruct (list_entry_fields st s) as (Fid & Favg & _).
    split; [exact Fid|].
    eexists; split; [exact Favg|apply AVG_average].
Qed.

Lemma average_rating_witness :
  rated Sample.store = true /\
  (exists r v, get_spotId Sample.store "1" = Sent r /\ status r = 200 /\
     field "avgStarRating" (body r) = Some (JVal v) /\
     is_average Sample.store Sample.cabin v) /\
  Forall2 (fun e s =>
             field "id" e = Some (JVal (int (Spot.id s))) /\
             exists v, field "avgRating" e = Some (JVal v) /\
                       is_average Sample.store s v)
          (Spots (get_root Sample.sequelize Sample.store Query.empty))
          (page_of_rows Query.empty (spots Sample.store)).
Proof.
  assert (R : rated Sample.store = true) by reflexivity.
  destruct (average_rating Sample.sequelize Sample.store R) as (D & L & _).
  split; [exact R|split].
  - apply (D "1" Sample.cabin (User.mk 1 "Ada" "King")); reflexivity.
  - apply (L Query.empty); reflexivity.
Defined.

(** The cabin, with stars 3 and 5, is listed with the average 4; the
    loft, without reviews, with null. *)
Example sample_averages (sequelize : Sequelize.t) :
  map (field "avgRating")
      (Spots (get_root sequelize Sample.store Query.empty))
  = [Some (JVal (Num (Fin (Qmake 4 1)))); Some (JVal Null)].
Proof. reflexivity. Qed.

(** C4.  The detail view does not round: for stars 3 and 5 it sends the
    number 4 where [toFixed(1)] would give the text 4.0, and for stars 1,
    2 and 2 it sends five thirds where the rounding gives 1.7.  The
    rounded [avgStarRating] is computed and left unused; the payload
    holds the same raw value as the list. *)
Theorem detail_average_not_rounded (sequelize : Sequelize.t) :
  (exists r, get_spotId Sample.store "1" = Sent r /\
     field "avgStarRating" (body r) = Some (JVal (Num (Fin (Qmake 4 1)))) /\
     toFixed1 (Fin (Qmake 4 1)) = "4.0") /\
  (exists r, get_spotId Sample.thirds "1" = Sent r /\
     field "avgStarRating" (body r) = Some (JVal (Num (Fin (Qmake 5 3)))) /\
     toFixed1 (Fin (Qmake 5 3)) = "1.7") /\
  (exists e, In e (Spots (get_root sequelize Sample.thirds Query.empty)) /\
     field "avgRating" e = Some (JVal (Num (Fin (Qmake 5 3))))).
Proof.
  split; [|split].
  - eexists; repeat split.
  - eexists; repeat split.
  - eexists; split; [left; reflexivity|reflexivity].
Qed.

(** In general the detail view never sends a text for the average. *)
Lemma detail_average_is_raw (st : Store) (spotId : string) (row : Spot.t)
  (owner : User.t) (r : Response) (t : string) :
  Db.findByPk st spotId = Some row -> Db.owner_of st row = Some owner ->
  get_spotId st spotId = Sent r ->
  field "avgStarRating" (body r) <> Some (JVal (Str t)).
Proof.
  intros F O E.
  destruct (get_spotId_found st spotId row owner F O) as (r' & E' & _ & _ & A).
  rewrite E in E'. injection E' as <-. rewrite A.
  unfold or_, Db.AVG. destruct (stars_of st row); simpl; [discriminate|].
  destruct (negb _); discriminate.
Qed.

(** *** The preview image *)

Lemma is_preview_true (i : SpotImage.t) :
  Db.is_preview i = true <-> SpotImage.preview i = Bool true.
Proof.
  unfold Db.is_preview.
  destruct (SpotImage.preview i) as [| |[|]| | |]; split;
    congruence || discriminate.
Qed.

Lemma previewImage_load (st : Store) (s : Spot.t) :
  is_preview_image st (Spot.id s) (shown st s).
Proof.
  unfold shown, previewImage; cbn [Db.SpotImages Db.load].
  unfold Db.images_of.
  destruct (filter _ (spotImages st)) as [|img l] eqn:E.
  - right; split; [|reflexivity]. intros img I K P.
    assert (H : In img []); [|destruct H].
    rewrite <- E. apply filter_In; split; [exact I|].
    apply andb_true_iff; split; [now apply Z.eqb_eq|now apply is_preview_true].
  - left; exists img.
    assert (H : In img (img :: l)) by now left.
    rewrite <- E in H. apply filter_In in H as [I C].
    apply andb_true_iff in C as [K P].
    apply Z.eqb_eq in K. apply is_preview_true in P. auto.
Qed.

Lemma previewImage_by_key (st : Store) (s s' : Spot.t) :
  Spot.id s = Spot.id s' -> shown st s = shown st s'.
Proof.
  intros K. unfold shown, previewImage; cbn [Db.SpotImages Db.load].
  unfold Db.images_of. now rewrite K.
Qed.

(** What [GET /spots/current] lists. *)
Lemma get_current_Spots (st : Store) (user : Z) :
  Spots (get_current st user)
  = map (fun s => JObj (row_fields s ++
                        [("avgRating", JVal Null);
                         ("previewImage", JVal (shown st s))]))
        (filter (fun s => Spot.ownerId s =? user) (spots st)).
Proof. unfold get_current, Spots; simpl. now rewrite map_map. Qed.

(** C5.  [GET /spots/current] has one entry for each spot of the user,
    and a list of [GET /spots] without filters that is served has one
    for each row of the page, in order; each entry carries the key of
    its row and, as [previewImage], the url of an image of that spot
    flagged [preview = true] when there is one and null when there is
    none.  Without any parameter the list is served.  Two entries for
    the same spot, one from each path, carry the same [previewImage]. *)
Theorem preview_image (sequelize : Sequelize.t) (st : Store) :
  (forall user,
      Forall2 (fun e s =>
                 field "id" e = Some (JVal (int (Spot.id s))) /\
                 exists v, field "previewImage" e = Some (JVal v) /\
                           is_preview_image st (Spot.id s) v)
              (Spots (get_current st user))
              (filter (fun s => Spot.ownerId s =? user) (spots st))) /\
  (forall q,
      filtered q = false -> status (get_root sequelize st q) = 200 ->
      Forall2 (fun e s =>
                 field "id" e = Some (JVal (int (Spot.id s))) /\
                 exists v, field "previewImage" e = Some (JVal v) /\
                           is_preview_image st (Spot.id s) v)
              (Spots (get_root sequelize st q))
              (page_of_rows q (spots st))) /\
  status (get_root sequelize st Query.empty) = 200 /\
  (forall user q e1 e2 k,
      In e1 (Spots (get_current st user)) ->
      In e2 (Spots (get_root sequelize st q)) ->
      field "id" e1 = Some (JVal (int k)) ->
      field "id" e2 = Some (JVal (int k)) ->
      field "previewImage" e1 = field "previewImage" e2).
Proof.
  split; [|split; [|split; [reflexivity|]]].
  - intros user. rewrite get_current_Spots.
    apply Forall2_map_self; intros s _.
    split; [reflexivity|].
    exists (shown st s); split; [reflexivity|apply previewImage_load].
  - intros q F S. rewrite (get_root_unfiltered sequelize st q F S).
    apply Forall2_map_self; intros s _.
    destruct (list_entry_fields st s) as (Fid & _ & Fp).
    split; [exact Fid|].
    exists (shown st s); split; [exact Fp|apply previewImage_load].
  - intros user q e1 e2 k H1 H2 K1 K2.
    destruct (get_current_entries st user e1 H1) as (s1 & _ & _ & Fid1 & Fp1).
    destruct (get_root_entries sequelize st q e2 H2) as (s2 & _ & ->).
    destruct (list_entry_fields st s2) as (Fid2 & _ & Fp2).
    rewrite Fp1, Fp2. do 2 f_equal. apply previewImage_by_key.
    rewrite Fid1 in K1. rewrite Fid2 in K2.
    injection K1 as K1. injection K2 as K2.
    apply int_inj. unfold int, of_Z, inject_Z. congruence.
Qed.

Lemma preview_image_witness :
  Forall2 (fun e s =>
             field "id" e = Some (JVal (int (Spot.id s))) /\
             exists v, field "previewImage" e = Some (JVal v) /\
                       is_preview_image Sample.store (Spot.id s) v)
          (Spots (get_root Sample.sequelize Sample.store Query.empty))
          (page_of_rows Query.empty (spots Sample.store)) /\
  field "previewImage" cabin_owned = field "previewImage" cabin_listed.
Proof.
  destruct (preview_image Sample.sequelize Sample.store) as (_ & L & _ & A).
  split.
  - apply (L Query.empty); reflexivity.
  - apply (A 1 Query.empty cabin_owned cabin_listed 1).
    + simpl. left; reflexivity.
    + simpl. left; reflexivity.
    + reflexivity.
    + reflexivity.
Defined.

(** With two images flagged, the first in table order is the one
    shown; the loft, with no image flagged, shows null. *)
Example first_flagged_image_wins (sequelize : Sequelize.t) :
  map (field "previewImage")
      (Spots (get_root sequelize Sample.store Query.empty))
  = [Some (JVal (Str "cabin-front.png")); Some (JVal Null)].
Proof. reflexivity. Qed.

(** *** Ownership *)

(** C6.  On an existing spot a requester other than its owner gets 404
    from [DELETE /spots/:spotId] and 403 from [PUT /spots/:spotId] and
    from [POST /spots/:spotId/images], and the store is left as it
    was. *)
Theorem non_owner_is_refused (st : Store) (user now : Z) (spotId : string)
  (spot : Spot.t) (b : Body.t) (url preview : value) :
  Db.findByPk st spotId = Some spot -> Spot.ownerId spot <> user ->
  delete_spotId st user spotId
  = (respond 404 (message "Spot couldn't be found"), st) /\
  put_spotId st user now spotId b = (respond 403 (message "Forbidden"), st) /\
  post_spotId_images st user spotId url preview
  = (Sent (respond 403 (message "Forbidden")), st).
Proof.
  intros F N. apply Z.eqb_neq in N.
  unfold delete_spotId, put_spotId, post_spotId_images.
  rewrite F, N. repeat split.
Qed.

Lemma non_owner_is_refused_witness :
  delete_spotId Sample.store 2 "1"
  = (respond 404 (message "Spot couldn't be found"), Sample.store) /\
  put_spotId Sample.store 2 5000 "1" Sample.good_body
  = (respond 403 (message "Forbidden"), Sample.store) /\
  post_spotId_images Sample.store 2 "1" (Str "x.png") (Bool true)
  = (Sent (respond 403 (message "Forbidden")), Sample.store).
Proof.
  apply (non_owner_is_refused Sample.store 2 5000 "1" Sample.cabin).
  - reflexivity.
  - simpl; lia.
Defined.

(** *** Deleting a spot *)

(** C7.  When the owner deletes a spot, the answer is 200 with the
    message [Successfully deleted], and afterwards no image, review or
    booking refers to the spot and no row of Spots has its key. *)
Theorem delete_cascades (st : Store) (user : Z) (spotId : string)
  (spot : Spot.t) :
  Db.findByPk st spotId = Some spot -> Spot.ownerId spot = user ->
  let r := fst (delete_spotId st user spotId) in
  let st' := snd (delete_spotId st user spotId) in
  r = respond 200 (message "Successfully deleted") /\
  (forall i, In i (spotImages st') -> SpotImage.spotId i <> Spot.id spot) /\
  (forall v, In v (reviews st') -> Review.spotId v <> Spot.id spot) /\
  (forall k, In k (bookings st') -> Booking.spotId k <> Spot.id spot) /\
  (forall s, In s (spots st') -> Spot.id s <> Spot.id spot).
Proof.
  intros F O. apply Z.eqb_eq in O.
  destruct (findByPk_some _ _ _ F) as [_ K]. apply eq_key_iff in K.
  unfold delete_spotId. rewrite F, O. cbn [negb fst snd].
  split; [reflexivity|].
  repeat split; intros x H E; simpl in H; apply filter_In in H as [_ H];
    rewrite E in H; try rewrite K in H; try rewrite Z.eqb_refl in H;
    discriminate.
Qed.

Lemma delete_cascades_witness :
  let r := fst (delete_spotId Sample.store 1 "1") in
  let st' := snd (delete_spotId Sample.store 1 "1") in
  r = respond 200 (message "Successfully deleted") /\
  (forall i, In i (spotImages st') ->
             SpotImage.spotId i <> Spot.id Sample.cabin) /\
  (forall v, In v (reviews st') -> Review.spotId v <> Spot.id Sample.cabin) /\
  (forall k, In k (bookings st') ->
             Booking.spotId k <> Spot.id Sample.cabin) /\
  (forall s, In s (spots st') -> Spot.id s <> Spot.id Sample.cabin).
Proof.
  apply (delete_cascades Sample.store 1 "1" Sample.cabin); reflexivity.
Defined.

(** Rows of other spots survive the deletion. *)
Lemma delete_keeps_other_rows (st : Store) (user : Z) (spotId : string)
  (spot : Spot.t) :
  Db.findByPk st spotId = Some spot ->
  let st' := snd (delete_spotId st user spotId) in
  (forall s, In s (spots st) -> Spot.id s <> Spot.id spot ->
             In s (spots st')) /\
  (forall k, In k (bookings st) -> Booking.spotId k <> Spot.id spot ->
             In k (bookings st')) /\
  users st' = users st.
Proof.
  intros F. destruct (findByPk_some _ _ _ F) as [_ K].
  unfold delete_spotId. rewrite F.
  destruct (negb _); cbn [snd]; [tauto|].
  repeat split; intros x I N; simpl; apply filter_In; split; auto;
    apply negb_true_iff.
  - now apply Z.eqb_neq.
  - unfold Db.eq_key. rewrite K. now apply Z.eqb_neq.
Qed.

(** *** Validation of the body *)

Lemma check_keeps (k : string) (c : bool) (k' m : string)
  (o : list (string * value)) :
  reported k o -> reported k (check c k' m o).
Proof.
  intros [m0 H]. unfold check. destruct c; [|now exists m0].
  destruct (string_dec k k') as [<-|N].
  - exists m. apply assoc_set_same.
  - exists m0. now rewrite assoc_set_other.
Qed.

Lemma check_adds (k : string) (c : bool) (m : string)
  (o : list (string * value)) :
  c = true -> reported k (check c k m o).
Proof. intros ->. exists m. apply assoc_set_same. Qed.

Lemma Qlt_bool_iff (a b : Q) : Qlt_bool a b = true <-> Qlt a b.
Proof.
  unfold Qlt_bool. rewrite negb_true_iff. split.
  - intros H. apply Qnot_le_lt. intros L.
    apply Qle_bool_iff in L. congruence.
  - intros H. apply not_true_is_false. intros L.
    apply Qle_bool_iff in L. exact (Qlt_not_le _ _ H L).
Qed.

Lemma missing_not_truthy (v : value) : missing v -> negb (truthy v) = true.
Proof. intros [->|[->| ->]]; reflexivity. Qed.

Lemma outside_fails (v : value) (q : Q) (lo hi : Z) :
  v = Num (Fin q) -> (Qlt q (inject_Z lo) \/ Qlt (inject_Z hi) q) ->
  is_undefined v || lt_lit v lo || gt_lit v hi = true.
Proof.
  intros -> [H|H]; unfold lt_lit, gt_lit, lt, ToNumber, of_Z;
    apply Qlt_bool_iff in H; rewrite H; simpl.
  - reflexivity.
  - apply orb_true_r.
Qed.

(** Every body the specification calls invalid has its field among the
    errors. *)
Lemma validate_reports (b : Body.t) (f : string) :
  invalid b f -> reported f (validate b).
Proof.
  intros H; unfold validate; cbv zeta;
    destruct H as [H|H|H|H|H|q H R|q H R|H|s H L|H|q H L];
    repeat first [apply check_adds | apply check_keeps];
    try (now apply missing_not_truthy);
    try (now apply (outside_fails _ q)).
  - rewrite (missing_not_truthy _ H). reflexivity.
  - rewrite H. unfold gt_lit, length_of, int, ToNumber, lt, of_Z.
    apply orb_true_iff; right. apply Qlt_bool_iff.
    rewrite <- Zlt_Qlt. lia.
  - destruct H as [->|[->| ->]]; reflexivity.
  - rewrite H. unfold le_lit, le, ToNumber, of_Z.
    apply Qle_bool_iff in L. now rewrite L.
Qed.

Lemma reported_not_empty (k : string) (errors : list (string * value)) :
  reported k errors ->
  (0 <? Z.of_nat (List.length (keys errors))) = true.
Proof.
  intros [m H]. destruct errors; [discriminate|].
  apply Z.ltb_lt. unfold keys. simpl List.length. lia.
Qed.

Lemma validation_error_names (errors : list (string * value)) (f : string) :
  reported f errors ->
  status (validation_error errors) = 400 /\
  field "message" (body (validation_error errors))
  = Some (JVal (Str "Validation Error")) /\
  exists m, error_for (validation_error errors) f = Some (JVal (Str m)).
Proof.
  intros [m H]. repeat split. exists m.
  unfold error_for, validation_error.
  cbn [body field assoc String.eqb Ascii.eqb Bool.eqb].
  change (field f (of_values errors) = Some (JVal (Str m))).
  now rewrite assoc_of_values, H.
Qed.

(** C8.  When a field of the body is invalid in one of the listed ways,
    [POST /spots] answers 400 with [Validation Error] and an [errors]
    object that has an entry for that field, and the store is the one
    it was; so does [PUT /spots/:spotId] on a spot the requester
    owns. *)
Theorem invalid_body_is_refused (st : Store) (user now : Z) (b : Body.t)
  (f : string) :
  invalid b f ->
  (let r := fst (post_root st user now b) in
   snd (post_root st user now b) = st /\
   status r = 400 /\
   field "message" (body r) = Some (JVal (Str "Validation Error")) /\
   exists m, error_for r f = Some (JVal (Str m))) /\
  (forall spotId spot,
      Db.findByPk st spotId = Some spot -> Spot.ownerId spot = user ->
      let r := fst (put_spotId st user now spotId b) in
      snd (put_spotId st user now spotId b) = st /\
      status r = 400 /\
      field "message" (body r) = Some (JVal (Str "Validation Error")) /\
      exists m, error_for r f = Some (JVal (Str m))).
Proof.
  intros I. apply validate_reports in I.
  pose proof (reported_not_empty _ _ I) as NE.
  pose proof (validation_error_names _ _ I) as V.
  split.
  - unfold post_root; cbv zeta. rewrite NE. cbn [fst snd]. tauto.
  - intros spotId spot F O. apply Z.eqb_eq in O.
    unfold put_spotId; cbv zeta. rewrite F, O, NE. cbn [negb fst snd]. tauto.
Qed.

Lemma invalid_body_is_refused_witness :
  (let r := fst (post_root Sample.store 1 5000 nameless_body) in
   snd (post_root Sample.store 1 5000 nameless_body) = Sample.store /\
   status r = 400 /\
   field "message" (body r) = Some (JVal (Str "Validation Error")) /\
   exists m, error_for r "name" = Some (JVal (Str m))) /\
  (let r := fst (put_spotId Sample.store 1 5000 "1" nameless_body) in
   snd (put_spotId Sample.store 1 5000 "1" nameless_body) = Sample.store /\
   status r = 400 /\
   field "message" (body r) = Some (JVal (Str "Validation Error")) /\
   exists m, error_for r "name" = Some (JVal (Str m))).
Proof.
  assert (I : invalid nameless_body "name")
    by (apply name_missing; left; reflexivity).
  destruct (invalid_body_is_refused Sample.store 1 5000 nameless_body
              "name" I) as [P U].
  split; [exact P|].
  apply (U "1" Sample.cabin); reflexivity.
Defined.

(** A body that passes every check is stored: [POST /spots] answers 201
    and appends the row, [PUT /spots/:spotId] answers 200 and rewrites
    it. *)
Example valid_body_is_stored :
  status (fst (post_root Sample.store 1 5000 Sample.good_body)) = 201 /\
  List.length (spots (snd (post_root Sample.store 1 5000 Sample.good_body)))
  = 3%nat /\
  status (fst (put_spotId Sample.store 1 5000 "1" Sample.good_body)) = 200 /\
  option_map Spot.name
    (Db.findByPk (snd (put_spotId Sample.store 1 5000 "1" Sample.good_body))
                 "1")
  = Some (Str "Bungalow").
Proof. repeat split. Qed.

End Spec.

(* ================================================================== *)
(** ** The list of spots: acceptance, pages and filters *)
(* ================================================================== *)

Module Listing.
Import JS Routes Notions Facts.

(** X2.  A served page has as many entries as [size] allows and the
    selected rows beyond its offset provide, hence never more than 20;
    a page past the end is empty. *)
Theorem listing_page_length (sequelize : Sequelize.t) (st : Store)
  (q : Query.t) :
  status (get_root sequelize st q) = 200 ->
  List.length (Spots (get_root sequelize st q))
  = Nat.min (limit_of q) (List.length (selected st q) - offset_of q) /\
  (List.length (Spots (get_root sequelize st q)) <= 20)%nat.
Proof.
  intros S. destruct (Spec.get_root_200 sequelize st q S) as [Z E].
  rewrite E, Spec.Spots_served. unfold page_of_rows.
  rewrite length_map, length_firstn, length_skipn.
  split; [reflexivity|].
  unfold limit_of. lia.
Qed.

Lemma listing_page_length_witness :
  List.length (Spots (get_root Sample.sequelize Sample.store second_of_one))
  = Nat.min (limit_of second_of_one)
      (List.length (selected Sample.store second_of_one)
       - offset_of second_of_one) /\
  (List.length (Spots (get_root Sample.sequelize Sample.store second_of_one))
   <= 20)%nat.
Proof.
  apply (listing_page_length Sample.sequelize Sample.store second_of_one).
  reflexivity.
Defined.

(** X3.  A served page holds, in their order, the selected rows from
    offset [(page - 1) * size] on, [size] of them at most: its entry
    number [j] is the selected row number [offset + j] when [j < size],
    and there is no entry [j] otherwise. *)
Theorem listing_page_rows (sequelize : Sequelize.t) (st : Store)
  (q : Query.t) (j : nat) :
  status (get_root sequelize st q) = 200 ->
  nth_error (Spots (get_root sequelize st q)) j
  = if (j <? limit_of q)%nat
    then option_map (listed st) (nth_error (selected st q) (offset_of q + j))
    else None.
Proof.
  intros S. destruct (Spec.get_root_200 sequelize st q S) as [_ E].
  rewrite E, Spec.Spots_served. unfold page_of_rows.
  rewrite nth_error_map, nth_error_firstn.
  destruct (j <? limit_of q)%nat; [|reflexivity].
  now rewrite nth_error_skipn.
Qed.

Lemma listing_page_rows_witness :
  nth_error (Spots (get_root Sample.sequelize Sample.store second_of_one)) 0
  = if (0 <? limit_of second_of_one)%nat
    then option_map (listed Sample.store)
           (nth_error (selected Sample.store second_of_one)
                      (offset_of second_of_one + 0))
    else None.
Proof.
  apply (listing_page_rows Sample.sequelize Sample.store second_of_one 0).
  reflexivity.
Defined.

(** Page two of size one of the sample store is the loft alone. *)
Example second_page_is_the_loft (sequelize : Sequelize.t) :
  Spots (get_root sequelize Sample.store second_of_one)
  = [listed Sample.store Sample.loft].
Proof. reflexivity. Qed.

(** With [sequelize.Op] undefined, a filter that passes its check has
    the request answered 500 with the message of the [catch], whatever
    the rows on file. *)
Example filter_is_answered_500 (st : Store) :
  get_root Sample.sequelize st (only_minLat "40")
  = fetch_failed (cannot_read "gte").
Proof. reflexivity. Qed.

(** X24.  A list without filters that is served holds one entry for each
    row of the page, in table order: the thirteen columns of the row,
    the raw average of the stars of its reviews (null without reviews)
    and its preview image. *)
Theorem listed_entries_are_rows (sequelize : Sequelize.t) (st : Store)
  (q : Query.t) :
  filtered q = false -> status (get_root sequelize st q) = 200 ->
  Spots (get_root sequelize st q)
  = map (fun s => JObj (row_fields s ++
                        [("avgRating", JVal (Db.AVG (stars_of st s)));
                         ("previewImage", JVal (shown st s))]))
        (page_of_rows q (spots st)).
Proof.
  intros F S. rewrite (Spec.get_root_unfiltered sequelize st q F S).
  apply map_ext; intros s.
  unfold listed, list_entry, Db.Review_avg, stars_of.
  now rewrite load_id, reviews_where_int.
Qed.

Lemma listed_entries_are_rows_witness :
  Spots (get_root Sample.sequelize Sample.store second_of_one)
  = map (fun s => JObj (row_fields s ++
                        [("avgRating",
                          JVal (Db.AVG (stars_of Sample.store s)));
                         ("previewImage", JVal (shown Sample.store s))]))
        (page_of_rows second_of_one (spots Sample.store)).
Proof.
  apply (listed_entries_are_rows Sample.sequelize Sample.store
           second_of_one); reflexivity.
Defined.

(** X5.  A filter given as the empty text is ignored: the answer is the
    one the request gets without that filter. *)
Theorem blank_filters_are_ignored (sequelize : Sequelize.t) (st : Store)
  (q : Query.t) :
  get_root sequelize st (blanked q) = get_root sequelize st q.
Proof.
  destruct q as [pg sz a b c d e f]. unfold blanked; simpl.
  assert (B : forall p, blank p = p \/ (blank p = None /\ p = Some "")).
  { intros [[|]|]; simpl; auto. }
  destruct (B a) as [->|[-> ->]], (B b) as [->|[-> ->]],
           (B c) as [->|[-> ->]], (B d) as [->|[-> ->]],
           (B e) as [->|[-> ->]], (B f) as [->|[-> ->]];
    reflexivity.
Qed.

End Listing.

(* ================================================================== *)
(** ** The spots of the requester and the detail of a spot *)
(* ================================================================== *)

Module Reading.
Import JS Routes Notions Facts.

(** The entries of [GET /spots/current], row by row. *)
Lemma get_current_listing (st : Store) (user : Z) :
  Spots (get_current st user)
  = map (fun s => JObj (row_fields s ++
                        [("avgRating", JVal Null);
                         ("previewImage", JVal (shown st s))]))
        (filter (fun s => Spot.ownerId s =? user) (spots st)).
Proof. unfold get_current, Spots; simpl. now rewrite map_map. Qed.

(** X6.  [GET /spots/current] lists exactly the rows whose [ownerId] is
    the requester, in table order, each with the thirteen columns of the
    row, a null [avgRating] and its preview image; no entry belongs to
    another owner. *)
Theorem current_lists_owned_spots (st : Store) (user : Z) :
  Spots (get_current st user)
  = map (fun s => JObj (row_fields s ++
                        [("avgRating", JVal Null);
                         ("previewImage", JVal (shown st s))]))
        (filter (fun s => Spot.ownerId s =? user) (spots st)) /\
  Forall (fun e => field "ownerId" e = Some (JVal (int user)))
         (Spots (get_current st user)).
Proof.
  assert (E : Spots (get_current st user)
              = map (fun s => JObj (row_fields s ++
                                    [("avgRating", JVal Null);
                                     ("previewImage", JVal (shown st s))]))
                    (filter (fun s => Spot.ownerId s =? user) (spots st))).
  { unfold get_current, Spots; simpl. now rewrite map_map. }
  split; [exact E|].
  rewrite E. apply Forall_forall; intros e H.
  apply in_map_iff in H as (s & <- & H).
  apply filter_In in H as [_ O]. apply Z.eqb_eq in O.
  now rewrite <- O.
Qed.

(** X7.  [GET /spots/:spotId] answers 400 when the parameter is empty
    or no number; 404 when it is a number but no spot has it as key;
    and, having no guard on [spot.Owner], throws instead of answering
    when the spot is found but its owner is not on file. *)
Theorem detail_refusals (st : Store) (p : string) :
  (p = "" \/ StringToNumber p = NaN ->
   get_spotId st p
   = Sent (respond 400
             (message "Invalid spotId. It must be a valid integer."))) /\
  (p <> "" -> StringToNumber p <> NaN -> Db.findByPk st p = None ->
   get_spotId st p
   = Sent (respond 404 (message "Spot couldn't be found"))) /\
  (forall row, Db.findByPk st p = Some row -> Db.owner_of st row = None ->
               get_spotId st p = Thrown).
Proof.
  unfold get_spotId, isNaN; cbn [truthy ToNumber].
  split; [|split].
  - intros [->| ->]; [reflexivity|].
    cbn [is_nan]. now rewrite orb_true_r.
  - intros N M F. apply String.eqb_neq in N. rewrite N, F.
    destruct (StringToNumber p); [congruence|reflexivity|reflexivity].
  - intros row F O.
    destruct (findByPk_some _ _ _ F) as [_ K].
    destruct (key_passes_guard _ _ K) as [T I].
    unfold isNaN in I; cbn [truthy ToNumber] in T, I. rewrite T, I, F.
    cbn [negb orb Db.Review_avg]; cbv zeta.
    change (Db.Owner (Db.load st attributes (fun _ => true) row))
      with (Db.owner_of st row).
    now rewrite O.
Qed.

Lemma detail_refusals_witness :
  get_spotId Sample.store "abc"
  = Sent (respond 400
            (message "Invalid spotId. It must be a valid integer.")) /\
  get_spotId Sample.store "1.5"
  = Sent (respond 404 (message "Spot couldn't be found")) /\
  get_spotId orphaned "1" = Thrown.
Proof.
  split; [|split].
  - apply (detail_refusals Sample.store "abc"). right; reflexivity.
  - apply (detail_refusals Sample.store "1.5");
      [discriminate|discriminate|reflexivity].
  - destruct (detail_refusals orphaned "1") as (_ & _ & T).
    apply (T Sample.cabin); reflexivity.
Defined.

Lemma get_spotId_payload (st : Store) (p : string) (row : Spot.t)
  (owner : User.t) :
  Db.findByPk st p = Some row -> Db.owner_of st row = Some owner ->
  get_spotId st p
  = Sent (respond 200
      (JObj (row_fields row ++
        [("numReviews",
          JVal (int (Z.of_nat (List.length (Db.reviews_of st (Spot.id row))))));
         ("avgStarRating", JVal (or_ (Db.AVG (stars_of st row)) Null));
         ("SpotImages",
          JArr (map image_json
                  (filter (fun i => SpotImage.spotId i =? Spot.id row)
                          (spotImages st))));
         ("Owner",
          JObj [("id", JVal (int (Spot.ownerId row)));
                ("firstName", JVal (Str (User.firstName owner)));
                ("lastName", JVal (Str (User.lastName owner)))])]))).
Proof.
  intros F O. unfold get_spotId.
  destruct (findByPk_some _ _ _ F) as [_ K].
  destruct (key_passes_guard _ _ K) as [T N]. rewrite T, N, F.
  cbn [negb orb Db.Review_avg]. cbv zeta.
  change (Db.Owner (Db.load st attributes (fun _ => true) row))
    with (Db.owner_of st row).
  rewrite O. unfold Db.Review_count, stars_of.
  rewrite load_id, reviews_where_int.
  apply find_some in O as [_ O]. apply Z.eqb_eq in O. rewrite O.
  assert (I : Db.SpotImages (Db.load st attributes (fun _ => true) row)
              = filter (fun i => SpotImage.spotId i =? Spot.id row)
                       (spotImages st)).
  { cbn [Db.SpotImages Db.load]. unfold Db.images_of.
    apply filter_ext; intros i. apply andb_true_r. }
  rewrite I. reflexivity.
Qed.

(** X8.  For a spot that is found and whose owner is on file,
    [GET /spots/:spotId] answers 200 with the thirteen columns of the
    row, the number of its reviews, the raw average (null when falsy),
    all of its images, flagged as preview or not, in table order with
    their [id], [url] and [preview], and the [id] and names of the user
    whose key is the row's [ownerId]. *)
Theorem detail_payload (st : Store) (p : string) (row : Spot.t)
  (owner : User.t) :
  Db.findByPk st p = Some row -> Db.owner_of st row = Some owner ->
  get_spotId st p
  = Sent (respond 200
      (JObj (row_fields row ++
        [("numReviews",
          JVal (int (Z.of_nat (List.length (Db.reviews_of st (Spot.id row))))));
         ("avgStarRating", JVal (or_ (Db.AVG (stars_of st row)) Null));
         ("SpotImages",
          JArr (map image_json
                  (filter (fun i => SpotImage.spotId i =? Spot.id row)
                          (spotImages st))));
         ("Owner",
          JObj [("id", JVal (int (Spot.ownerId row)));
                ("firstName", JVal (Str (User.firstName owner)));
                ("lastName", JVal (Str (User.lastName owner)))])]))).
Proof. exact (get_spotId_payload st p row owner). Qed.

Lemma detail_payload_witness :
  get_spotId Sample.store "1"
  = Sent (respond 200
      (JObj (row_fields Sample.cabin ++
        [("numReviews",
          JVal (int (Z.of_nat (List.length
                                 (Db.reviews_of Sample.store
                                                (Spot.id Sample.cabin))))));
         ("avgStarRating",
          JVal (or_ (Db.AVG (stars_of Sample.store Sample.cabin)) Null));
         ("SpotImages",
          JArr (map image_json
                  (filter (fun i => SpotImage.spotId i
                                    =? Spot.id Sample.cabin)
                          (spotImages Sample.store))));
         ("Owner",
          JObj [("id", JVal (int (Spot.ownerId Sample.cabin)));
                ("firstName", JVal (Str (User.firstName
                                           (User.mk 1 "Ada" "King"))));
                ("lastName", JVal (Str (User.lastName
                                          (User.mk 1 "Ada" "King"))))])]))).
Proof.
  apply (detail_payload Sample.store "1" Sample.cabin
                        (User.mk 1 "Ada" "King")); reflexivity.
Defined.

End Reading.

(* ================================================================== *)
(** ** Creating, editing and deleting spots; adding images *)
(* ================================================================== *)

Module Writing.
Import JS Routes Notions Facts.

(** *** What the checks of the body let through *)

Lemma present_truthy (v : value) : present v -> negb (truthy v) = false.
Proof.
  intros (s & -> & N). simpl. apply String.eqb_neq in N. now rewrite N.
Qed.

Lemma Qlt_bool_false (a b : Q) : Qle b a -> Qlt_bool a b = false.
Proof.
  intros H. unfold Qlt_bool. apply Qle_bool_iff in H. now rewrite H.
Qed.

Lemma inside_passes (lo hi : Z) (v : value) :
  inside lo hi v -> is_undefined v || lt_lit v lo || gt_lit v hi = false.
Proof.
  intros (q & -> & L & H).
  unfold lt_lit, gt_lit, lt, ToNumber, of_Z; simpl.
  now rewrite (Qlt_bool_false _ _ L), (Qlt_bool_false _ _ H).
Qed.

Lemma named_passes (v : value) :
  named v -> negb (truthy v) || gt_lit (length_of v) 50 = false.
Proof.
  intros (s & -> & N & L). simpl.
  apply String.eqb_neq in N. rewrite N; simpl.
  unfold gt_lit, lt, ToNumber, int, of_Z.
  apply Qlt_bool_false. rewrite <- Zle_Qle. lia.
Qed.

Lemma priced_passes (v : value) :
  priced v -> is_undefined v || le_lit v 0 = false.
Proof.
  intros (q & -> & P). unfold le_lit, le, ToNumber, of_Z; simpl.
  apply not_true_is_false. intros H. apply Qle_bool_iff in H.
  exact (Qlt_not_le _ _ P H).
Qed.

Lemma no_number_passes (lo hi : Z) (v : value) :
  v = Null \/ no_number v ->
  lo < 0 -> 0 < hi ->
  is_undefined v || lt_lit v lo || gt_lit v hi = false.
Proof.
  intros [->|(s & -> & N)] L H.
  - unfold lt_lit, gt_lit, lt, ToNumber, of_Z; simpl.
    rewrite !Qlt_bool_false; [reflexivity| |]; rewrite <- Zle_Qle; lia.
  - unfold lt_lit, gt_lit, ToNumber; simpl. now rewrite N.
Qed.

Lemma acceptable_validates (b : Body.t) : acceptable b -> validate b = [].
Proof.
  intros (A & C & S & K & La & Ln & N & D & P).
  unfold validate; cbv zeta.
  rewrite (present_truthy _ A), (present_truthy _ C), (present_truthy _ S),
    (present_truthy _ K), (inside_passes _ _ _ La), (inside_passes _ _ _ Ln),
    (named_passes _ N), (present_truthy _ D), (priced_passes _ P).
  reflexivity.
Qed.

Lemma reported_nil (k : string) : ~ reported k [].
Proof. intros [m H]; discriminate H. Qed.

Lemma reported_check_other (k k' : string) (c : bool) (m : string)
  (o : list (string * value)) :
  (k =? k')%string = false -> reported k (check c k' m o) -> reported k o.
Proof.
  intros N [m0 H]. apply String.eqb_neq in N.
  unfold check in H. destruct c; [|now exists m0].
  rewrite assoc_set_other in H by assumption. now exists m0.
Qed.

Lemma reported_check_false (k : string) (c : bool) (m : string)
  (o : list (string * value)) :
  c = false -> reported k (check c k m o) -> reported k o.
Proof. now intros ->. Qed.

(** Strips the checks off [validate] in a hypothesis, skipping those of
    other keys and using [tac] where the key is the one looked for. *)
Ltac strip R tac :=
  unfold validate in R; cbv zeta in R;
  repeat first
    [ apply reported_check_other in R; [|reflexivity]
    | apply reported_check_false in R; [|solve [tac]] ];
  exact (reported_nil _ R).

(** X9.  [errors] names no field that is fine: a text field that is a
    non-empty text, a [lat] or [lng] that is a number within its range,
    a [name] of one to fifty characters (fifty included) and a [price]
    above zero get no entry, whatever the other fields are. *)
Theorem validation_spares_fine_fields (b : Body.t) :
  (present (Body.address b) -> ~ reported "address" (validate b)) /\
  (present (Body.city b) -> ~ reported "city" (validate b)) /\
  (present (Body.state b) -> ~ reported "state" (validate b)) /\
  (present (Body.country b) -> ~ reported "country" (validate b)) /\
  (inside (-90) 90 (Body.lat b) -> ~ reported "lat" (validate b)) /\
  (inside (-180) 180 (Body.lng b) -> ~ reported "lng" (validate b)) /\
  (named (Body.name b) -> ~ reported "name" (validate b)) /\
  (present (Body.description b) -> ~ reported "description" (validate b)) /\
  (priced (Body.price b) -> ~ reported "price" (validate b)).
Proof.
  repeat split; intros H R.
  - strip R ltac:(now apply present_truthy).
  - strip R ltac:(now apply present_truthy).
  - strip R ltac:(now apply present_truthy).
  - strip R ltac:(now apply present_truthy).
  - strip R ltac:(now apply inside_passes).
  - strip R ltac:(now apply inside_passes).
  - strip R ltac:(now apply named_passes).
  - strip R ltac:(now apply present_truthy).
  - strip R ltac:(now apply priced_passes).
Qed.

Lemma validation_spares_fine_fields_witness :
  ~ reported "address" (validate nameless_body) /\
  ~ reported "lat" (validate nameless_body) /\
  ~ reported "price" (validate nameless_body).
Proof.
  destruct (validation_spares_fine_fields nameless_body)
    as (A & _ & _ & _ & L & _ & _ & _ & P).
  split; [|split].
  - apply A. exists "9 Elm St"; split; [reflexivity|discriminate].
  - apply L. exists (Qmake 4361 100); split; [reflexivity|].
    split; apply Qle_bool_iff; reflexivity.
  - apply P. exists (inject_Z 95); split; [reflexivity|reflexivity].
Defined.

(** X10.  The checks of [lat], [lng] and [price] compare without asking
    for a number: a null [lat] or [lng], and a text that is no number in
    [lat], [lng] or [price], raise no error for that field. *)
Theorem validation_lets_non_numbers_through (b : Body.t) :
  (Body.lat b = Null \/ no_number (Body.lat b) ->
   ~ reported "lat" (validate b)) /\
  (Body.lng b = Null \/ no_number (Body.lng b) ->
   ~ reported "lng" (validate b)) /\
  (no_number (Body.price b) -> ~ reported "price" (validate b)).
Proof.
  repeat split; intros H R.
  - strip R ltac:(apply no_number_passes; [assumption|lia|lia]).
  - strip R ltac:(apply no_number_passes; [assumption|lia|lia]).
  - strip R ltac:(destruct H as (s & -> & N);
                  unfold le_lit, ToNumber; simpl; now rewrite N).
Qed.

Lemma validation_lets_non_numbers_through_witness :
  ~ reported "lat" (validate odd_body) /\
  ~ reported "lng" (validate odd_body) /\
  ~ reported "price" (validate odd_body).
Proof.
  destruct (validation_lets_non_numbers_through odd_body) as (A & B & C).
  split; [|split].
  - apply A. right. exists "north"; split; reflexivity.
  - apply B. left; reflexivity.
  - apply C. exists "free"; split; reflexivity.
Defined.

(** *** Creating *)

Lemma post_root_acceptable (st : Store) (user now : Z)
  (b : Body.t) :
  acceptable b ->
  post_root st user now b
  = (respond 201 (JObj (row_fields (row_of (nextSpotId st) user now now b))),
     {| users := users st;
        spots := spots st ++ [row_of (nextSpotId st) user now now b];
        spotImages := spotImages st;
        reviews := reviews st;
        bookings := bookings st;
        nextSpotId := nextSpotId st + 1;
        nextSpotImageId := nextSpotImageId st |}).
Proof.
  intros A. unfold post_root; cbv zeta.
  now rewrite (acceptable_validates _ A).
Qed.

(** X11.  A body whose text fields are non-empty texts, whose [lat] and
    [lng] are numbers within range, whose [name] is a text of one to
    fifty bytes and whose [price] is a number above zero is stored by
    [POST /spots]: the answer is 201 with the new row, which holds the
    body's fields, the next key, the requester as owner and the instant
    of the insert as both stamps; the row goes last in Spots, the next
    key moves up by one and nothing else changes. *)
Theorem acceptable_body_is_created (st : Store) (user now : Z)
  (b : Body.t) :
  acceptable b ->
  post_root st user now b
  = (respond 201 (JObj (row_fields (row_of (nextSpotId st) user now now b))),
     {| users := users st;
        spots := spots st ++ [row_of (nextSpotId st) user now now b];
        spotImages := spotImages st;
        reviews := reviews st;
        bookings := bookings st;
        nextSpotId := nextSpotId st + 1;
        nextSpotImageId := nextSpotImageId st |}).
Proof. exact (post_root_acceptable st user now b). Qed.

Lemma good_body_acceptable : acceptable Sample.good_body.
Proof.
  unfold acceptable, Sample.good_body; simpl.
  repeat split;
    try (eexists; split; [reflexivity|discriminate]).
  - exists (Qmake 4361 100); split; [reflexivity|].
    split; apply Qle_bool_iff; reflexivity.
  - exists (Qmake (-11620) 100); split; [reflexivity|].
    split; apply Qle_bool_iff; reflexivity.
  - exists "Bungalow"; split; [reflexivity|].
    split; [discriminate|simpl; lia].
  - exists (inject_Z 95); split; reflexivity.
Defined.

Lemma acceptable_body_is_created_witness :
  post_root Sample.store 1 5000 Sample.good_body
  = (respond 201
       (JObj (row_fields
                (row_of (nextSpotId Sample.store) 1 5000 5000
                        Sample.good_body))),
     {| users := users Sample.store;
        spots := spots Sample.store
                 ++ [row_of (nextSpotId Sample.store) 1 5000 5000
                            Sample.good_body];
        spotImages := spotImages Sample.store;
        reviews := reviews Sample.store;
        bookings := bookings Sample.store;
        nextSpotId := nextSpotId Sample.store + 1;
        nextSpotImageId := nextSpotImageId Sample.store |}).
Proof.
  apply (acceptable_body_is_created Sample.store 1 5000 Sample.good_body).
  exact good_body_acceptable.
Defined.

(** *** Editing *)

(** The first row a key finds is still found, rewritten, after every
    row of that key has been rewritten. *)
Lemma find_rewritten (p : string) (l : list Spot.t) (spot row : Spot.t) :
  find (fun s => Db.eq_key p (Spot.id s)) l = Some spot ->
  Spot.id row = Spot.id spot ->
  find (fun s => Db.eq_key p (Spot.id s))
       (map (fun s => if Spot.id s =? Spot.id spot then row else s) l)
  = Some row.
Proof.
  intros F R. induction l as [|s l IH]; simpl in *; [discriminate|].
  destruct (Db.eq_key p (Spot.id s)) eqn:E.
  - injection F as ->. rewrite Z.eqb_refl, R. now rewrite E.
  - destruct (Spot.id s =? Spot.id spot) eqn:I.
    + apply Z.eqb_eq in I. specialize (IH F).
      apply find_some in F as [_ F]. rewrite <- I in F. congruence.
    + rewrite E. auto.
Qed.

Lemma put_spotId_acceptable (st : Store) (user now : Z)
  (p : string) (spot : Spot.t) (b : Body.t) :
  Db.findByPk st p = Some spot -> Spot.ownerId spot = user ->
  acceptable b ->
  let row := row_of (Spot.id spot) (Spot.ownerId spot)
                    (Spot.createdAt spot) now b in
  put_spotId st user now p b
  = (respond 200 (JObj (row_fields row)),
     {| users := users st;
        spots := map (fun s => if Spot.id s =? Spot.id spot then row else s)
                     (spots st);
        spotImages := spotImages st;
        reviews := reviews st;
        bookings := bookings st;
        nextSpotId := nextSpotId st;
        nextSpotImageId := nextSpotImageId st |}) /\
  Db.findByPk (snd (put_spotId st user now p b)) p = Some row.
Proof.
  intros F O A row. apply Z.eqb_eq in O.
  assert (E : put_spotId st user now p b
              = (respond 200 (JObj (row_fields row)),
                 Db.with_spots st
                   (map (fun s => if Spot.id s =? Spot.id spot
                                  then row else s) (spots st))
                   (nextSpotId st))).
  { unfold put_spotId; cbv zeta.
    now rewrite F, O, (acceptable_validates _ A). }
  split; [exact E|].
  rewrite E. cbn [snd]. unfold Db.findByPk, Db.with_spots; cbn [spots].
  now apply find_rewritten.
Qed.

(** X12.  When the owner sends to [PUT /spots/:spotId] a body whose
    text fields are non-empty texts, whose [lat] and [lng] are numbers
    within range, whose [name] is a text of one to fifty bytes and whose
    [price] is a number above zero, the answer is 200 with the rewritten
    row,
    which keeps the key, the owner and [createdAt], holds the body's
    nine fields and has [updatedAt] set to the instant of the update.
    In Spots the rows of that key are replaced by it and every other
    row stays in place; the parameter finds the rewritten row
    afterwards; no other table and no key counter changes. *)
Theorem acceptable_update_is_stored (st : Store) (user now : Z)
  (p : string) (spot : Spot.t) (b : Body.t) :
  Db.findByPk st p = Some spot -> Spot.ownerId spot = user ->
  acceptable b ->
  let row := row_of (Spot.id spot) (Spot.ownerId spot)
                    (Spot.createdAt spot) now b in
  put_spotId st user now p b
  = (respond 200 (JObj (row_fields row)),
     {| users := users st;
        spots := map (fun s => if Spot.id s =? Spot.id spot then row else s)
                     (spots st);
        spotImages := spotImages st;
        reviews := reviews st;
        bookings := bookings st;
        nextSpotId := nextSpotId st;
        nextSpotImageId := nextSpotImageId st |}) /\
  Db.findByPk (snd (put_spotId st user now p b)) p = Some row.
Proof. exact (put_spotId_acceptable st user now p spot b). Qed.

Lemma acceptable_update_is_stored_witness :
  let row := row_of (Spot.id Sample.cabin) (Spot.ownerId Sample.cabin)
                    (Spot.createdAt Sample.cabin) 5000 Sample.good_body in
  put_spotId Sample.store 1 5000 "1" Sample.good_body
  = (respond 200 (JObj (row_fields row)),
     {| users := users Sample.store;
        spots := map (fun s => if Spot.id s =? Spot.id Sample.cabin
                               then row else s)
                     (spots Sample.store);
        spotImages := spotImages Sample.store;
        reviews := reviews Sample.store;
        bookings := bookings Sample.store;
        nextSpotId := nextSpotId Sample.store;
        nextSpotImageId := nextSpotImageId Sample.store |}) /\
  Db.findByPk (snd (put_spotId Sample.store 1 5000 "1" Sample.good_body)) "1"
  = Some row.
Proof.
  apply (acceptable_update_is_stored Sample.store 1 5000 "1" Sample.cabin
                                     Sample.good_body).
  - reflexivity.
  - reflexivity.
  - exact good_body_acceptable.
Defined.

(** *** Spots that are not there *)

Lemma findByPk_none (st : Store) (p : string) :
  (forall s, In s (spots st) -> Db.key p <> Some (Spot.id s)) ->
  Db.findByPk st p = None.
Proof.
  intros N. unfold Db.findByPk.
  destruct (find _ _) as [s|] eqn:F; [|reflexivity].
  apply find_some in F as [I E]. apply eq_key_iff in E.
  destruct (N s I E).
Qed.

(** X13.  When the parameter denotes the key of no spot on file (or no
    key at all), [PUT /spots/:spotId], [DELETE /spots/:spotId] and
    [POST /spots/:spotId/images] answer 404 and leave the store as it
    is, whatever the body and the requester: the existence test comes
    before ownership and validation, and none of the three has the 400
    guard of [GET /spots/:spotId]. *)
Theorem absent_spot_is_not_found (st : Store) (user now : Z) (p : string)
  (b : Body.t) (url preview : value) :
  (forall s, In s (spots st) -> Db.key p <> Some (Spot.id s)) ->
  put_spotId st user now p b
  = (respond 404 (message "Spot couldn't be found"), st) /\
  delete_spotId st user p
  = (respond 404 (message "Spot couldn't be found"), st) /\
  post_spotId_images st user p url preview
  = (Sent (respond 404 (message "Spot couldn't be found")), st).
Proof.
  intros N. apply findByPk_none in N.
  unfold put_spotId, delete_spotId, post_spotId_images.
  now rewrite N.
Qed.

Lemma absent_spot_is_not_found_witness :
  put_spotId Sample.store 1 5000 "abc" nameless_body
  = (respond 404 (message "Spot couldn't be found"), Sample.store) /\
  delete_spotId Sample.store 1 "abc"
  = (respond 404 (message "Spot couldn't be found"), Sample.store) /\
  post_spotId_images Sample.store 1 "abc" Undefined Undefined
  = (Sent (respond 404 (message "Spot couldn't be found")), Sample.store).
Proof.
  apply (absent_spot_is_not_found Sample.store 1 5000 "abc").
  intros s _. discriminate.
Defined.

(** *** Deleting *)

(** What the owner's [DELETE /spots/:spotId] leaves. *)
Lemma delete_by_owner (st : Store) (user : Z) (p : string) (spot : Spot.t) :
  Db.findByPk st p = Some spot -> Spot.ownerId spot = user ->
  delete_spotId st user p
  = (respond 200 (message "Successfully deleted"),
     {| users := users st;
        spots := filter (fun s => negb (Spot.id s =? Spot.id spot))
                        (spots st);
        spotImages :=
          filter (fun i => negb (SpotImage.spotId i =? Spot.id spot))
                 (spotImages st);
        reviews :=
          filter (fun r => negb (Review.spotId r =? Spot.id spot))
                 (reviews st);
        bookings :=
          filter (fun k => negb (Booking.spotId k =? Spot.id spot))
                 (bookings st);
        nextSpotId := nextSpotId st;
        nextSpotImageId := nextSpotImageId st |}).
Proof.
  intros F O. apply Z.eqb_eq in O.
  destruct (findByPk_some _ _ _ F) as [_ K].
  unfold delete_spotId. rewrite F, O. cbn [negb].
  unfold Db.Spot_destroy, Db.Booking_destroy, Db.Review_destroy,
    Db.SpotImage_destroy, Db.with_spots, Db.eq_key; simpl.
  now rewrite K.
Qed.

Lemma In_filter_ne {A : Type} (key : A -> Z) (k : Z) (l : list A) (x : A) :
  In x (filter (fun y => negb (key y =? k)) l) <-> In x l /\ key x <> k.
Proof.
  rewrite filter_In, negb_true_iff, Z.eqb_neq. tauto.
Qed.

(** X14.  The owner's [DELETE /spots/:spotId] removes exactly the rows
    of that spot: afterwards each table holds the rows it held that do
    not carry the spot's key (as [id] in Spots, as [spotId] elsewhere),
    in their order; users and key counters are as before. *)
Theorem delete_removes_exactly (st : Store) (user : Z) (p : string)
  (spot : Spot.t) :
  Db.findByPk st p = Some spot -> Spot.ownerId spot = user ->
  let st' := snd (delete_spotId st user p) in
  (forall s, In s (spots st') <->
             In s (spots st) /\ Spot.id s <> Spot.id spot) /\
  (forall i, In i (spotImages st') <->
             In i (spotImages st) /\ SpotImage.spotId i <> Spot.id spot) /\
  (forall r, In r (reviews st') <->
             In r (reviews st) /\ Review.spotId r <> Spot.id spot) /\
  (forall k, In k (bookings st') <->
             In k (bookings st) /\ Booking.spotId k <> Spot.id spot) /\
  users st' = users st /\ nextSpotId st' = nextSpotId st /\
  nextSpotImageId st' = nextSpotImageId st.
Proof.
  intros F O. rewrite (delete_by_owner st user p spot F O).
  cbn [snd spots spotImages reviews bookings users nextSpotId
       nextSpotImageId].
  split; [intros x; apply (In_filter_ne Spot.id)|].
  split; [intros x; apply (In_filter_ne SpotImage.spotId)|].
  split; [intros x; apply (In_filter_ne Review.spotId)|].
  split; [intros x; apply (In_filter_ne Booking.spotId)|].
  repeat split.
Qed.

Lemma delete_removes_exactly_witness :
  let st' := snd (delete_spotId Sample.store 1 "1") in
  (forall s, In s (spots st') <->
             In s (spots Sample.store) /\ Spot.id s <> Spot.id Sample.cabin) /\
  (forall i, In i (spotImages st') <->
             In i (spotImages Sample.store) /\
             SpotImage.spotId i <> Spot.id Sample.cabin) /\
  (forall r, In r (reviews st') <->
             In r (reviews Sample.store) /\
             Review.spotId r <> Spot.id Sample.cabin) /\
  (forall k, In k (bookings st') <->
             In k (bookings Sample.store) /\
             Booking.spotId k <> Spot.id Sample.cabin) /\
  users st' = users Sample.store /\
  nextSpotId st' = nextSpotId Sample.store /\
  nextSpotImageId st' = nextSpotImageId Sample.store.
Proof.
  apply (delete_removes_exactly Sample.store 1 "1" Sample.cabin);
    reflexivity.
Defined.

(** X15.  A deleted spot is gone for every route: after the owner's
    [DELETE /spots/:spotId] the same parameter gets 404 from
    [GET /spots/:spotId], from a second [DELETE], from [PUT] and from
    [POST /spots/:spotId/images], and these leave the store as the
    deletion left it. *)
Theorem deleted_spot_is_gone (st : Store) (user who now : Z) (p : string)
  (spot : Spot.t) (b : Body.t) (url preview : value) :
  Db.findByPk st p = Some spot -> Spot.ownerId spot = user ->
  let st' := snd (delete_spotId st user p) in
  get_spotId st' p
  = Sent (respond 404 (message "Spot couldn't be found")) /\
  delete_spotId st' who p
  = (respond 404 (message "Spot couldn't be found"), st') /\
  put_spotId st' who now p b
  = (respond 404 (message "Spot couldn't be found"), st') /\
  post_spotId_images st' who p url preview
  = (Sent (respond 404 (message "Spot couldn't be found")), st').
Proof.
  intros F O st'.
  destruct (findByPk_some _ _ _ F) as [_ K].
  assert (G : Db.findByPk st' p = None).
  { unfold st'. rewrite (delete_by_owner st user p spot F O); cbn [snd].
    unfold Db.findByPk; cbn [spots].
    destruct (find _ _) as [s|] eqn:E; [|reflexivity].
    apply find_some in E as [I E]. apply filter_In in I as [_ N].
    apply eq_key_iff in E. rewrite K in E. injection E as E.
    rewrite E, Z.eqb_refl in N. discriminate N. }
  destruct (key_passes_guard _ _ K) as [T N].
  unfold get_spotId, delete_spotId, put_spotId, post_spotId_images.
  now rewrite T, N, G.
Qed.

Lemma deleted_spot_is_gone_witness :
  let st' := snd (delete_spotId Sample.store 1 "1") in
  get_spotId st' "1"
  = Sent (respond 404 (message "Spot couldn't be found")) /\
  delete_spotId st' 1 "1"
  = (respond 404 (message "Spot couldn't be found"), st') /\
  put_spotId st' 1 6000 "1" Sample.good_body
  = (respond 404 (message "Spot couldn't be found"), st') /\
  post_spotId_images st' 1 "1" (Str "x.png") (Bool true)
  = (Sent (respond 404 (message "Spot couldn't be found")), st').
Proof.
  apply (deleted_spot_is_gone Sample.store 1 1 6000 "1" Sample.cabin);
    reflexivity.
Defined.

(** *** Adding images *)

(** What the owner's [POST /spots/:spotId/images] leaves. *)
Lemma image_by_owner (st : Store) (user : Z) (p : string) (spot : Spot.t)
  (url preview : value) :
  Db.findByPk st p = Some spot -> Spot.ownerId spot = user ->
  post_spotId_images st user p url preview
  = (Sent (respond 201
             (image_json (SpotImage.mk (nextSpotImageId st) (Spot.id spot)
                            url (Db.sanitize_boolean preview)))),
     {| users := users st;
        spots := spots st;
        spotImages :=
          spotImages st
          ++ [SpotImage.mk (nextSpotImageId st) (Spot.id spot) url
                           (Db.sanitize_boolean preview)];
        reviews := reviews st;
        bookings := bookings st;
        nextSpotId := nextSpotId st;
        nextSpotImageId := nextSpotImageId st + 1 |}).
Proof.
  intros F O. apply Z.eqb_eq in O.
  destruct (findByPk_some _ _ _ F) as [_ K].
  unfold post_spotId_images, Db.SpotImage_create.
  now rewrite F, O, K.
Qed.

(** X16.  With a text as [url] and a boolean as [preview], the owner's
    [POST /spots/:spotId/images] answers 201 with the new image's key,
    [url] and [preview]: the two body fields are stored as sent, in a
    row that goes last in SpotImages under the next key and the spot's
    key; the next key moves up by one and nothing else changes. *)
Theorem image_is_added (st : Store) (user : Z) (p : string) (spot : Spot.t)
  (url : string) (preview : bool) :
  Db.findByPk st p = Some spot -> Spot.ownerId spot = user ->
  let image := SpotImage.mk (nextSpotImageId st) (Spot.id spot)
                            (Str url) (Bool preview) in
  post_spotId_images st user p (Str url) (Bool preview)
  = (Sent (respond 201
             (JObj [("id", JVal (int (nextSpotImageId st)));
                    ("url", JVal (Str url));
                    ("preview", JVal (Bool preview))])),
     {| users := users st;
        spots := spots st;
        spotImages := (spotImages st ++ [image])%list;
        reviews := reviews st;
        bookings := bookings st;
        nextSpotId := nextSpotId st;
        nextSpotImageId := nextSpotImageId st + 1 |}).
Proof.
  intros F O.
  exact (image_by_owner st user p spot (Str url) (Bool preview) F O).
Qed.

Lemma image_is_added_witness :
  let image := SpotImage.mk (nextSpotImageId Sample.store)
                            (Spot.id Sample.loft) (Str "loft.png")
                            (Bool false) in
  post_spotId_images Sample.store 2 "2" (Str "loft.png") (Bool false)
  = (Sent (respond 201
             (JObj [("id", JVal (int (nextSpotImageId Sample.store)));
                    ("url", JVal (Str "loft.png"));
                    ("preview", JVal (Bool false))])),
     {| users := users Sample.store;
        spots := spots Sample.store;
        spotImages := (spotImages Sample.store ++ [image])%list;
        reviews := reviews Sample.store;
        bookings := bookings Sample.store;
        nextSpotId := nextSpotId Sample.store;
        nextSpotImageId := nextSpotImageId Sample.store + 1 |}).
Proof.
  apply (image_is_added Sample.store 2 "2" Sample.loft); reflexivity.
Defined.

(** A [preview] sent as the number 1 is stored, and sent back, as
    [true]. *)
Example preview_one_is_true :
  fst (post_spotId_images Sample.store 2 "2" (Str "loft.png") (int 1))
  = Sent (respond 201
            (JObj [("id", JVal (int 4)); ("url", JVal (Str "loft.png"));
                   ("preview", JVal (Bool true))])).
Proof. reflexivity. Qed.

(** X17.  What an image added with a text as [url] and a boolean as
    [preview] does to the preview the lists show: an image not flagged
    changes no preview, and a flagged one changes none but that of its
    spot, where it becomes the preview only when the spot had no flagged
    image, since the first flagged image in table order is the one
    shown. *)
Theorem added_image_and_preview (st : Store) (user : Z) (p : string)
  (spot : Spot.t) (url : string) (preview : bool) (s : Spot.t) :
  Db.findByPk st p = Some spot -> Spot.ownerId spot = user ->
  let st' := snd (post_spotId_images st user p (Str url) (Bool preview)) in
  shown st' s
  = if preview && (Spot.id s =? Spot.id spot)
    then match Db.images_of st Db.is_preview s with
         | [] => Str url
         | _ :: _ => shown st s
         end
    else shown st s.
Proof.
  intros F O st'. unfold st'.
  rewrite (image_by_owner st user p spot (Str url) (Bool preview) F O);
    cbn [snd Db.sanitize_boolean].
  unfold shown, previewImage; cbn [Db.SpotImages Db.load].
  unfold Db.images_of; cbn [spotImages]. rewrite filter_app.
  cbn [filter SpotImage.spotId SpotImage.url SpotImage.preview
       Db.is_preview].
  rewrite (Z.eqb_sym (Spot.id spot)).
  destruct preview, (Spot.id s =? Spot.id spot); cbn [andb];
    try (now rewrite app_nil_r).
  now destruct (filter _ (spotImages st)).
Qed.

Lemma added_image_and_preview_witness :
  let st' := snd (post_spotId_images Sample.store 2 "2" (Str "loft.png")
                                     (Bool true)) in
  shown st' Sample.loft
  = if true && (Spot.id Sample.loft =? Spot.id Sample.loft)
    then match Db.images_of Sample.store Db.is_preview Sample.loft with
         | [] => Str "loft.png"
         | _ :: _ => shown Sample.store Sample.loft
         end
    else shown Sample.store Sample.loft.
Proof.
  apply (added_image_and_preview Sample.store 2 "2" Sample.loft
                                 "loft.png" true Sample.loft);
    reflexivity.
Defined.

(** The loft gets its first preview; the cabin keeps the one it has. *)
Example previews_after_adding :
  shown (snd (post_spotId_images Sample.store 2 "2" (Str "loft.png")
                                 (Bool true))) Sample.loft
  = Str "loft.png" /\
  shown (snd (post_spotId_images Sample.store 1 "1" (Str "new.png")
                                 (Bool true))) Sample.cabin
  = Str "cabin-front.png".
Proof. split; reflexivity. Qed.

End Writing.

(* ================================================================== *)
(** ** Invariants of the store and round trips through it *)
(* ================================================================== *)

Module Integrity.
Import JS Routes Notions Facts.

(** *** What each writing handler leaves *)

Lemma post_root_store (st : Store) (user now : Z) (b : Body.t) :
  snd (post_root st user now b) = st \/
  snd (post_root st user now b)
  = Db.with_spots st (spots st ++ [row_of (nextSpotId st) user now now b])
                  (nextSpotId st + 1).
Proof.
  unfold post_root; cbv zeta.
  destruct (0 <? _); [now left|now right].
Qed.

Lemma put_spotId_store (st : Store) (user now : Z) (p : string)
  (b : Body.t) :
  snd (put_spotId st user now p b) = st \/
  exists spot row,
    Spot.id row = Spot.id spot /\
    snd (put_spotId st user now p b)
    = Db.with_spots st
        (map (fun s => if Spot.id s =? Spot.id spot then row else s)
             (spots st))
        (nextSpotId st).
Proof.
  unfold put_spotId; cbv zeta.
  destruct (Db.findByPk st p) as [spot|]; [|now left].
  destruct (negb _); [now left|].
  destruct (0 <? _); [now left|].
  right. exists spot. eexists; split; [|reflexivity]. reflexivity.
Qed.

Lemma delete_spotId_store (st : Store) (user : Z) (p : string) :
  snd (delete_spotId st user p) = st \/
  exists k,
    snd (delete_spotId st user p)
    = {| users := users st;
         spots := filter (fun s => negb (Spot.id s =? k)) (spots st);
         spotImages :=
           filter (fun i => negb (SpotImage.spotId i =? k)) (spotImages st);
         reviews := filter (fun r => negb (Review.spotId r =? k)) (reviews st);
         bookings :=
           filter (fun x => negb (Booking.spotId x =? k)) (bookings st);
         nextSpotId := nextSpotId st;
         nextSpotImageId := nextSpotImageId st |}.
Proof.
  destruct (Db.findByPk st p) as [spot|] eqn:F.
  - destruct (Z.eq_dec (Spot.ownerId spot) user) as [O|O].
    + right. exists (Spot.id spot).
      now rewrite (Writing.delete_by_owner st user p spot F O).
    + left. unfold delete_spotId. apply Z.eqb_neq in O. now rewrite F, O.
  - left. unfold delete_spotId. now rewrite F.
Qed.

Lemma post_spotId_images_store (st : Store) (user : Z) (p : string)
  (url preview : value) :
  snd (post_spotId_images st user p url preview) = st \/
  exists spot flag,
    In spot (spots st) /\
    snd (post_spotId_images st user p url preview)
    = {| users := users st;
         spots := spots st;
         spotImages :=
           spotImages st
           ++ [SpotImage.mk (nextSpotImageId st) (Spot.id spot) url flag];
         reviews := reviews st;
         bookings := bookings st;
         nextSpotId := nextSpotId st;
         nextSpotImageId := nextSpotImageId st + 1 |}.
Proof.
  destruct (Db.findByPk st p) as [spot|] eqn:F.
  - destruct (Z.eq_dec (Spot.ownerId spot) user) as [O|O].
    + right. exists spot, (Db.sanitize_boolean preview).
      split; [now apply findByPk_some in F|].
      now rewrite (Writing.image_by_owner st user p spot url preview F O).
    + left. unfold post_spotId_images. apply Z.eqb_neq in O.
      now rewrite F, O.
  - left. unfold post_spotId_images. now rewrite F.
Qed.

(** *** Lists of keys *)

Lemma map_id_rewritten (k : Z) (row : Spot.t) (l : list Spot.t) :
  Spot.id row = k ->
  map Spot.id (map (fun s => if Spot.id s =? k then row else s) l)
  = map Spot.id l.
Proof.
  intros R. rewrite map_map. apply map_ext; intros s.
  destruct (Spot.id s =? k) eqn:E; [|reflexivity].
  apply Z.eqb_eq in E. congruence.
Qed.

Lemma NoDup_map_filter {A : Type} (f : A -> Z) (g : A -> bool)
  (l : list A) :
  NoDup (map f l) -> NoDup (map f (filter g l)).
Proof.
  induction l as [|a l IH]; simpl; [auto|].
  intros H. apply NoDup_cons_iff in H as [N H].
  destruct (g a); simpl; [|auto].
  apply NoDup_cons; [|auto].
  intros I. apply N. apply in_map_iff in I as (x & E & I).
  apply filter_In in I as [I _]. apply in_map_iff. eauto.
Qed.

Lemma NoDup_map_snoc {A : Type} (f : A -> Z) (l : list A) (x : A) :
  NoDup (map f l) -> (forall y, In y l -> f y < f x) ->
  NoDup (map f (l ++ [x])).
Proof.
  intros N L. rewrite map_app. apply NoDup_app; [exact N| |].
  - simpl. apply NoDup_cons; [tauto|constructor].
  - intros a I [<-|[]]. apply in_map_iff in I as (y & E & I).
    specialize (L y I). lia.
Qed.

Lemma refers_rewritten (st : Store) (k0 : Z) (row : Spot.t) (next k : Z) :
  Spot.id row = k0 ->
  refers st k ->
  refers (Db.with_spots st
            (map (fun s => if Spot.id s =? k0 then row else s) (spots st))
            next) k.
Proof.
  intros R (s & I & E). unfold refers; cbn [spots Db.with_spots].
  exists (if Spot.id s =? k0 then row else s). split.
  - apply in_map_iff. eauto.
  - destruct (Spot.id s =? k0) eqn:T; [|exact E].
    apply Z.eqb_eq in T. congruence.
Qed.

(** X18.  Referential integrity is kept by every writing route: if
    every image, review and booking belongs to a spot on file, the same
    holds after [POST /spots], [PUT /spots/:spotId],
    [DELETE /spots/:spotId] and [POST /spots/:spotId/images], whatever
    the request and its outcome.  For the deletion this is what the
    three cascading [destroy] calls provide. *)
Theorem integrity_is_kept (st : Store) (user now : Z) (p : string)
  (b : Body.t) (url preview : value) :
  integral st ->
  integral (snd (post_root st user now b)) /\
  integral (snd (put_spotId st user now p b)) /\
  integral (snd (delete_spotId st user p)) /\
  integral (snd (post_spotId_images st user p url preview)).
Proof.
  intros (HI & HR & HB). repeat split.
  - destruct (post_root_store st user now b) as [->| ->];
      [intros; auto|].
    intros i I. destruct (HI i I) as (s & J & E).
    exists s; split; [|exact E]. simpl. apply in_app_iff; now left.
  - destruct (post_root_store st user now b) as [->| ->]; [auto|].
    intros r I. destruct (HR r I) as (s & J & E).
    exists s; split; [|exact E]. simpl. apply in_app_iff; now left.
  - destruct (post_root_store st user now b) as [->| ->]; [auto|].
    intros k I. destruct (HB k I) as (s & J & E).
    exists s; split; [|exact E]. simpl. apply in_app_iff; now left.
  - destruct (put_spotId_store st user now p b)
      as [->|(spot & row & R & ->)]; [auto|].
    intros i I. apply refers_rewritten; auto.
  - destruct (put_spotId_store st user now p b)
      as [->|(spot & row & R & ->)]; [auto|].
    intros r I. apply refers_rewritten; auto.
  - destruct (put_spotId_store st user now p b)
      as [->|(spot & row & R & ->)]; [auto|].
    intros k I. apply refers_rewritten; auto.
  - destruct (delete_spotId_store st user p) as [->|(k & ->)]; [auto|].
    intros i I. cbn [spotImages] in I.
    apply Writing.In_filter_ne in I as [I N].
    destruct (HI i I) as (s & J & E). exists s; split; [|exact E].
    cbn [spots]. apply (Writing.In_filter_ne Spot.id). split; congruence.
  - destruct (delete_spotId_store st user p) as [->|(k & ->)]; [auto|].
    intros r I. cbn [reviews] in I.
    apply Writing.In_filter_ne in I as [I N].
    destruct (HR r I) as (s & J & E). exists s; split; [|exact E].
    cbn [spots]. apply (Writing.In_filter_ne Spot.id). split; congruence.
  - destruct (delete_spotId_store st user p) as [->|(k & ->)]; [auto|].
    intros x I. cbn [bookings] in I.
    apply Writing.In_filter_ne in I as [I N].
    destruct (HB x I) as (s & J & E). exists s; split; [|exact E].
    cbn [spots]. apply (Writing.In_filter_ne Spot.id). split; congruence.
  - destruct (post_spotId_images_store st user p url preview)
      as [->|(spot & flag & S & ->)]; [auto|].
    intros i I. cbn [spotImages] in I. apply in_app_iff in I as [I|[<-|[]]].
    + exact (HI i I).
    + exists spot; split; [exact S|reflexivity].
  - destruct (post_spotId_images_store st user p url preview)
      as [->|(spot & flag & S & ->)]; [auto|]. exact HR.
  - destruct (post_spotId_images_store st user p url preview)
      as [->|(spot & flag & S & ->)]; [auto|]. exact HB.
Qed.

Lemma sample_integral : integral Sample.store.
Proof.
  unfold integral, refers; simpl. repeat split; intros x H;
    repeat (destruct H as [<-|H];
            [first [exists Sample.cabin; split; [now left|reflexivity]
                   |exists Sample.loft; split; [right; now left|reflexivity]]
            |]);
    destruct H.
Defined.

Lemma integrity_is_kept_witness :
  integral (snd (post_root Sample.store 1 5000 Sample.good_body)) /\
  integral (snd (put_spotId Sample.store 1 5000 "1" Sample.good_body)) /\
  integral (snd (delete_spotId Sample.store 1 "1")) /\
  integral (snd (post_spotId_images Sample.store 1 "1" (Str "x.png")
                                    (Bool true))).
Proof.
  apply (integrity_is_kept Sample.store 1 5000 "1"). exact sample_integral.
Defined.

(** X19.  Keys stay unique and below the next key to be given out: if
    no two spots and no two images share a key and every key is below
    its counter, the same holds after each of the four writing routes,
    whatever the request and its outcome. *)
Theorem keys_are_kept (st : Store) (user now : Z) (p : string)
  (b : Body.t) (url preview : value) :
  keyed st ->
  keyed (snd (post_root st user now b)) /\
  keyed (snd (put_spotId st user now p b)) /\
  keyed (snd (delete_spotId st user p)) /\
  keyed (snd (post_spotId_images st user p url preview)).
Proof.
  intros (US & FS & UI & FI). split; [|split; [|split]].
  - destruct (post_root_store st user now b) as [->| ->];
      [repeat split; auto|].
    unfold keyed; cbn [spots spotImages nextSpotId nextSpotImageId
                       Db.with_spots].
    repeat split; auto.
    + apply NoDup_map_snoc; [exact US|]. intros y I. now apply FS.
    + intros s I. apply in_app_iff in I as [I|[<-|[]]].
      * specialize (FS s I). lia.
      * simpl. lia.
  - destruct (put_spotId_store st user now p b)
      as [->|(spot & row & R & ->)]; [repeat split; auto|].
    unfold keyed; cbn [spots spotImages nextSpotId nextSpotImageId
                       Db.with_spots].
    repeat split; auto.
    + now rewrite map_id_rewritten.
    + intros s I. apply in_map_iff in I as (s0 & E & I).
      destruct (Spot.id s0 =? Spot.id spot) eqn:T.
      * apply Z.eqb_eq in T. subst s. rewrite R, <- T. now apply FS.
      * subst s. now apply FS.
  - destruct (delete_spotId_store st user p) as [->|(k & ->)];
      [repeat split; auto|].
    unfold keyed; cbn [spots spotImages nextSpotId nextSpotImageId].
    repeat split.
    + now apply NoDup_map_filter.
    + intros s I. apply filter_In in I as [I _]. now apply FS.
    + now apply NoDup_map_filter.
    + intros i I. apply filter_In in I as [I _]. now apply FI.
  - destruct (post_spotId_images_store st user p url preview)
      as [->|(spot & flag & S & ->)]; [repeat split; auto|].
    unfold keyed; cbn [spots spotImages nextSpotId nextSpotImageId].
    repeat split; auto.
    + apply NoDup_map_snoc; [exact UI|]. intros y I. now apply FI.
    + intros i I. apply in_app_iff in I as [I|[<-|[]]].
      * specialize (FI i I). lia.
      * simpl. lia.
Qed.

Lemma sample_keyed : keyed Sample.store.
Proof.
  unfold keyed; simpl. repeat split.
  - repeat constructor; simpl; intuition lia.
  - intros s [<-|[<-|[]]]; simpl; lia.
  - repeat constructor; simpl; intuition lia.
  - intros i [<-|[<-|[<-|[]]]]; simpl; lia.
Defined.

Lemma keys_are_kept_witness :
  keyed (snd (post_root Sample.store 1 5000 Sample.good_body)) /\
  keyed (snd (put_spotId Sample.store 1 5000 "1" Sample.good_body)) /\
  keyed (snd (delete_spotId Sample.store 1 "1")) /\
  keyed (snd (post_spotId_images Sample.store 1 "1" (Str "x.png")
                                 (Bool true))).
Proof.
  apply (keys_are_kept Sample.store 1 5000 "1"). exact sample_keyed.
Defined.

(** *** Round trips *)

Lemma find_snoc {A : Type} (f : A -> bool) (l : list A) (x : A) :
  (forall y, In y l -> f y = false) -> f x = true ->
  find f (l ++ [x]) = Some x.
Proof.
  intros N T. induction l as [|a l IH]; simpl.
  - now rewrite T.
  - rewrite (N a) by now left. apply IH. intros y I. apply N. now right.
Qed.

Lemma filter_nil {A : Type} (f : A -> bool) (l : list A) :
  (forall y, In y l -> f y = false) -> filter f l = [].
Proof.
  intros N. induction l as [|a l IH]; simpl; [reflexivity|].
  rewrite (N a) by now left. apply IH. intros y I. apply N. now right.
Qed.

(** No row refers to a key that has not been given out yet. *)
Lemma next_key_unused (st : Store) (k : Z) :
  keyed st -> refers st k -> (k =? nextSpotId st) = false.
Proof.
  intros (_ & F & _) (s & I & E). apply Z.eqb_neq.
  specialize (F s I). lia.
Qed.

(** X20.  A created spot can be read back.  In a store whose keys are
    unique and below their counters and whose rows refer to spots on
    file, after [POST /spots] by a user on file with a body of non-empty
    texts, numbers within range as [lat] and [lng], a [name] of one to
    fifty bytes and a number above zero as [price],
    [GET /spots/:spotId] with a text denoting the new key answers 200
    with the row's columns, 0 reviews, a null average, no images and the
    requester as [Owner]; and [GET /spots/current] of the requester
    lists what it listed before followed by the new spot, with null
    [avgRating] and null [previewImage]. *)
Theorem created_spot_round_trip (st : Store) (user now : Z) (b : Body.t)
  (p : string) (owner : User.t) :
  keyed st -> integral st -> acceptable b ->
  find (fun u => User.id u =? user) (users st) = Some owner ->
  Db.key p = Some (nextSpotId st) ->
  let row := row_of (nextSpotId st) user now now b in
  let st' := snd (post_root st user now b) in
  get_spotId st' p
  = Sent (respond 200
      (JObj (row_fields row ++
        [("numReviews", JVal (int 0));
         ("avgStarRating", JVal Null);
         ("SpotImages", JArr []);
         ("Owner",
          JObj [("id", JVal (int user));
                ("firstName", JVal (Str (User.firstName owner)));
                ("lastName", JVal (Str (User.lastName owner)))])]))) /\
  Spots (get_current st' user)
  = (Spots (get_current st user)
     ++ [JObj (row_fields row ++ [("avgRating", JVal Null);
                                  ("previewImage", JVal Null)])])%list.
Proof.
  intros KY (HI & HR & _) A O K row st'.
  assert (E : st' = Db.with_spots st (spots st ++ [row])
                                  (nextSpotId st + 1)).
  { unfold st'. now rewrite (Writing.post_root_acceptable st user now b A). }
  assert (NI : filter (fun i => SpotImage.spotId i =? nextSpotId st)
                      (spotImages st) = []).
  { apply filter_nil. intros i I.
    apply (next_key_unused st _ KY (HI i I)). }
  assert (NR : filter (fun r => Review.spotId r =? nextSpotId st)
                      (reviews st) = []).
  { apply filter_nil. intros r I.
    apply (next_key_unused st _ KY (HR r I)). }
  split.
  - assert (F : Db.findByPk st' p = Some row).
    { rewrite E. unfold Db.findByPk; cbn [spots Db.with_spots].
      apply find_snoc.
      - intros s I. unfold Db.eq_key. rewrite K.
        apply (next_key_unused st _ KY). now exists s.
      - unfold Db.eq_key. rewrite K. apply Z.eqb_refl. }
    assert (W : Db.owner_of st' row = Some owner) by (rewrite E; exact O).
    rewrite (Reading.get_spotId_payload st' p row owner F W).
    unfold stars_of, Db.reviews_of. rewrite E.
    cbn [reviews spotImages Db.with_spots]. unfold row at 2 3 4.
    cbn [Spot.id row_of]. rewrite NI, NR. reflexivity.
  - rewrite !Reading.get_current_listing, E.
    cbn [spots Db.with_spots]. rewrite filter_app, map_app.
    cbn [filter]. change (Spot.ownerId row) with user.
    rewrite Z.eqb_refl. cbn [map]. f_equal.
    unfold shown, previewImage; cbn [Db.SpotImages Db.load].
    unfold Db.images_of; cbn [spotImages Db.with_spots].
    assert (N : filter (fun i => (SpotImage.spotId i =? Spot.id row)
                                 && Db.is_preview i) (spotImages st) = []).
    { apply filter_nil. intros i I.
      change (Spot.id row) with (nextSpotId st).
      now rewrite (next_key_unused st _ KY (HI i I)). }
    now rewrite N.
Qed.

Lemma created_spot_round_trip_witness :
  let row := row_of (nextSpotId Sample.store) 1 5000 5000
                    Sample.good_body in
  let st' := snd (post_root Sample.store 1 5000 Sample.good_body) in
  get_spotId st' "3"
  = Sent (respond 200
      (JObj (row_fields row ++
        [("numReviews", JVal (int 0));
         ("avgStarRating", JVal Null);
         ("SpotImages", JArr []);
         ("Owner",
          JObj [("id", JVal (int 1));
                ("firstName", JVal (Str (User.firstName
                                           (User.mk 1 "Ada" "King"))));
                ("lastName", JVal (Str (User.lastName
                                          (User.mk 1 "Ada" "King"))))])]))) /\
  Spots (get_current st' 1)
  = (Spots (get_current Sample.store 1)
     ++ [JObj (row_fields row ++ [("avgRating", JVal Null);
                                  ("previewImage", JVal Null)])])%list.
Proof.
  apply (created_spot_round_trip Sample.store 1 5000 Sample.good_body "3"
                                 (User.mk 1 "Ada" "King")).
  - exact sample_keyed.
  - exact sample_integral.
  - exact Writing.good_body_acceptable.
  - reflexivity.
  - reflexivity.
Defined.

(** X21.  An edit changes the thirteen columns of the detail and
    nothing else: when the owner, on file, sends to [PUT /spots/:spotId]
    a body of non-empty texts, numbers within range as [lat] and [lng],
    a [name] of one to fifty bytes and a number above zero as [price],
    [GET /spots/:spotId] answers 200 before and after, and the two
    payloads differ only in that the columns of the
    old row give way to those of the rewritten row; the number of
    reviews, the average, the images and the owner are the same. *)
Theorem edited_spot_round_trip (st : Store) (user now : Z) (p : string)
  (spot : Spot.t) (b : Body.t) (owner : User.t) :
  Db.findByPk st p = Some spot -> Spot.ownerId spot = user ->
  acceptable b -> Db.owner_of st spot = Some owner ->
  let row := row_of (Spot.id spot) (Spot.ownerId spot)
                    (Spot.createdAt spot) now b in
  let st' := snd (put_spotId st user now p b) in
  exists rest,
    get_spotId st p = Sent (respond 200 (JObj (row_fields spot ++ rest))) /\
    get_spotId st' p = Sent (respond 200 (JObj (row_fields row ++ rest))).
Proof.
  intros F O A W row st'.
  destruct (Writing.put_spotId_acceptable st user now p spot b F O A)
    as [E F'].
  fold row in E, F'. fold st' in F'.
  assert (W' : Db.owner_of st' row = Some owner).
  { unfold st'. rewrite E. exact W. }
  rewrite (Reading.get_spotId_payload st p spot owner F W).
  rewrite (Reading.get_spotId_payload st' p row owner F' W').
  eexists; split; [reflexivity|].
  unfold st'. rewrite E. reflexivity.
Qed.

Lemma edited_spot_round_trip_witness :
  let row := row_of (Spot.id Sample.cabin) (Spot.ownerId Sample.cabin)
                    (Spot.createdAt Sample.cabin) 5000 Sample.good_body in
  let st' := snd (put_spotId Sample.store 1 5000 "1" Sample.good_body) in
  exists rest,
    get_spotId Sample.store "1"
    = Sent (respond 200 (JObj (row_fields Sample.cabin ++ rest))) /\
    get_spotId st' "1" = Sent (respond 200 (JObj (row_fields row ++ rest))).
Proof.
  apply (edited_spot_round_trip Sample.store 1 5000 "1" Sample.cabin
                                Sample.good_body (User.mk 1 "Ada" "King"));
    try reflexivity.
  exact Writing.good_body_acceptable.
Defined.

End Integrity.

(* ================================================================== *)
(** ** Keys, pages and sizes written in decimal *)
(* ================================================================== *)

Module Texts.
Import JS Routes Notions Facts.

(** *** Reading back what [Z_to_string] writes *)

Lemma digits_chars_of (u : Decimal.uint) (acc : Z) (n : nat) :
  digits 10 (chars_of u) acc n
  = (spelled u acc, (n + List.length (chars_of u))%nat, []).
Proof.
  unfold chars_of. revert acc n.
  induction u; intros acc n;
    cbn [NilEmpty.string_of_uint list_ascii_of_string digits spelled
         List.length];
    try (rewrite Nat.add_0_r; reflexivity);
    match goal with
    | |- context [digit 10 ?c] =>
        let d := eval vm_compute in (digit 10 c) in
        change (digit 10 c) with d
    end;
    cbv iota; rewrite IHu; now rewrite Nat.add_succ_r.
Qed.

Lemma spelled_acc (u : Decimal.uint) (acc : positive) :
  Zpos (Pos.of_uint_acc u acc) = spelled u (Zpos acc).
Proof.
  revert acc. induction u; intros acc;
    cbn [Pos.of_uint_acc spelled]; [reflexivity|..];
    rewrite IHu; f_equal; lia.
Qed.

Lemma spelled_of_uint (u : Decimal.uint) :
  Z.of_N (Pos.of_uint u) = spelled u 0.
Proof.
  induction u; cbn [Pos.of_uint spelled]; [reflexivity|exact IHu|..];
    cbn [Z.of_N]; rewrite spelled_acc; reflexivity.
Qed.

Lemma spelled_to_uint (p : positive) : spelled (Pos.to_uint p) 0 = Zpos p.
Proof.
  now rewrite <- spelled_of_uint, DecimalPos.Unsigned.of_to.
Qed.

Lemma to_uint_not_nil (p : positive) : Pos.to_uint p <> Decimal.Nil.
Proof.
  intros E. pose proof (DecimalPos.Unsigned.of_to p) as H.
  rewrite E in H. discriminate H.
Qed.

Lemma chars_of_plain (u : Decimal.uint) :
  Forall (fun c => is_ws c = false) (chars_of u).
Proof.
  unfold chars_of. induction u;
    cbn [NilEmpty.string_of_uint list_ascii_of_string];
    constructor; auto.
Qed.

Lemma skip_ws_plain (l : list ascii) :
  Forall (fun c => is_ws c = false) l -> skip_ws l = l.
Proof.
  intros [|c r H _]; [reflexivity|]. cbn [skip_ws]. now rewrite H.
Qed.

Lemma trim_plain (l : list ascii) :
  Forall (fun c => is_ws c = false) l -> trim l = l.
Proof.
  intros H. unfold trim. rewrite (skip_ws_plain l H).
  rewrite skip_ws_plain by now apply Forall_rev.
  apply rev_involutive.
Qed.

Lemma chars_of_head (u : Decimal.uint) :
  has_radix_prefix (chars_of u) = false /\
  radix_prefix (chars_of u) = None /\
  sign (chars_of u) = (false, chars_of u) /\
  strip_prefix infinity (chars_of u) = None /\
  (match chars_of u with
   | "0"%char :: x :: r => if is_x x then (16, r) else (10, chars_of u)
   | _ => (10, chars_of u)
   end) = (10, chars_of u).
Proof.
  unfold chars_of.
  destruct u as [|u|u|u|u|u|u|u|u|u|u]; try (repeat split; reflexivity).
  destruct u; repeat split; reflexivity.
Qed.

Lemma scan_chars_of (u : Decimal.uint) :
  u <> Decimal.Nil ->
  scan_decimal (chars_of u) = Some (Qmake (spelled u 0 * 1) 1, []).
Proof.
  intros N. unfold scan_decimal. rewrite digits_chars_of.
  destruct (chars_of u) eqn:E.
  - destruct u; try congruence; discriminate E.
  - reflexivity.
Qed.

Lemma StringToNumber_chars (neg : bool) (u : Decimal.uint) (s : string) :
  u <> Decimal.Nil ->
  list_ascii_of_string s
  = (if neg then "-"%char :: chars_of u else chars_of u) ->
  StringToNumber s = Fin (negate neg (Qmake (spelled u 0 * 1) 1)) /\
  (trim (list_ascii_of_string s) <> [] /\
   has_radix_prefix (trim (list_ascii_of_string s)) = false) /\
  parseInt s = Some (if neg then - spelled u 0 else spelled u 0).
Proof.
  intros N E.
  destruct (chars_of_head u) as (H & R & S & I & X).
  pose proof (chars_of_plain u) as P.
  assert (C : chars_of u <> []).
  { unfold chars_of. destruct u; try congruence; discriminate. }
  assert (T : trim (list_ascii_of_string s) = list_ascii_of_string s).
  { apply trim_plain. rewrite E. destruct neg; [constructor|]; auto. }
  split; [|split].
  - unfold StringToNumber. rewrite T, E.
    destruct neg.
    + cbn [sign]. rewrite I, (scan_chars_of u N). reflexivity.
    + destruct (chars_of u) as [|c r] eqn:L; [congruence|].
      fold (radix_prefix (c :: r)). rewrite R, S, I.
      rewrite <- L, (scan_chars_of u N). reflexivity.
  - rewrite T, E. destruct neg; split;
      discriminate || reflexivity || assumption.
  - unfold parseInt. rewrite skip_ws_plain
      by (rewrite E; destruct neg; [constructor|]; auto).
    rewrite E. destruct neg.
    + cbn [sign]. rewrite X, digits_chars_of.
      destruct (chars_of u); [congruence|reflexivity].
    + rewrite S, X, digits_chars_of.
      destruct (chars_of u); [congruence|reflexivity].
Qed.

Lemma string_of_uint_chars (u : Decimal.uint) :
  u <> Decimal.Nil ->
  list_ascii_of_string (NilZero.string_of_uint u) = chars_of u.
Proof. intros N. destruct u; congruence || reflexivity. Qed.

(** A number written in decimal reads back as itself, as an integer and
    as a key. *)
Lemma decimal_reads_back (z : Z) :
  parseInt (Z_to_string z) = Some z /\ Db.key (Z_to_string z) = Some z.
Proof.
  destruct z as [|p|p]; [split; reflexivity| |].
  - destruct (StringToNumber_chars false (Pos.to_uint p)
                (Z_to_string (Zpos p)) (to_uint_not_nil p))
      as (N & [T H] & I).
    { apply string_of_uint_chars, to_uint_not_nil. }
    rewrite spelled_to_uint in *. split; [exact I|].
    unfold Db.key. rewrite N.
    destruct (trim _); [congruence|]. rewrite H.
    cbn [negate]. rewrite Qcanon.Qred_identity by apply Z.gcd_1_r.
    cbn [Qden Qnum]. now rewrite Z.mul_1_r.
  - destruct (StringToNumber_chars true (Pos.to_uint p)
                (Z_to_string (Zneg p)) (to_uint_not_nil p))
      as (N & [T H] & I).
    { unfold Z_to_string; cbn [Z.to_int NilZero.string_of_int
                               list_ascii_of_string].
      f_equal. apply string_of_uint_chars, to_uint_not_nil. }
    rewrite spelled_to_uint in *. split; [exact I|].
    unfold Db.key. rewrite N.
    destruct (trim _); [congruence|]. rewrite H.
    cbn [negate Qopp Qnum Qden].
    rewrite Qcanon.Qred_identity by apply Z.gcd_1_r.
    cbn [Qden Qnum]. now rewrite Z.mul_1_r.
Qed.

(** *** Spots by the text of their key *)

Lemma find_unique {A : Type} (f : A -> Z) (l : list A) (x : A) :
  NoDup (map f l) -> In x l -> find (fun y => f y =? f x) l = Some x.
Proof.
  induction l as [|a l IH]; simpl; [tauto|].
  intros N I. apply NoDup_cons_iff in N as [N1 N2].
  destruct I as [->|I]; [now rewrite Z.eqb_refl|].
  destruct (f a =? f x) eqn:E; [|auto].
  apply Z.eqb_eq in E. exfalso. apply N1. rewrite E.
  apply in_map_iff. eauto.
Qed.

(** X22.  Every spot on file is reachable by its key written in
    decimal: when keys are unique, [findByPk] with that text returns the
    spot itself, and, its owner being on file, [GET /spots/:spotId]
    answers 200 with a payload that starts with the spot's columns. *)
Theorem decimal_key_finds_its_spot (st : Store) (s : Spot.t) :
  keyed st -> In s (spots st) ->
  Db.findByPk st (Z_to_string (Spot.id s)) = Some s /\
  forall owner,
    Db.owner_of st s = Some owner ->
    exists rest,
      get_spotId st (Z_to_string (Spot.id s))
      = Sent (respond 200 (JObj (row_fields s ++ rest))).
Proof.
  intros (U & _) I.
  assert (F : Db.findByPk st (Z_to_string (Spot.id s)) = Some s).
  { unfold Db.findByPk, Db.eq_key.
    destruct (decimal_reads_back (Spot.id s)) as [_ ->].
    now apply (find_unique Spot.id). }
  split; [exact F|]. intros owner O.
  rewrite (Reading.get_spotId_payload st _ s owner F O). eauto.
Qed.

Lemma decimal_key_finds_its_spot_witness :
  Db.findByPk Sample.store (Z_to_string (Spot.id Sample.loft))
  = Some Sample.loft /\
  forall owner,
    Db.owner_of Sample.store Sample.loft = Some owner ->
    exists rest,
      get_spotId Sample.store (Z_to_string (Spot.id Sample.loft))
      = Sent (respond 200 (JObj (row_fields Sample.loft ++ rest))).
Proof.
  apply (decimal_key_finds_its_spot Sample.store Sample.loft).
  - exact Integrity.sample_keyed.
  - right; left; reflexivity.
Defined.

(** *** Pages by number *)

Lemma int_or_positive (n d : Z) : 1 <= n -> int_or (Some n) d = n.
Proof. destruct n; simpl; auto; lia. Qed.

Lemma filter_all {A : Type} (l : list A) : filter (fun _ => true) l = l.
Proof. induction l; simpl; congruence. Qed.

(** X23.  With [page] and [size] written in decimal, [page] at least 1
    and [size] from 1 to 20, their product not above 2^53, and no
    filter, [GET /spots] answers 200, echoes both numbers and lists the
    rows of the table from row [(page - 1) * size] on, [size] of them at
    most. *)
Theorem decimal_page_is_served (sequelize : Sequelize.t) (st : Store)
  (n m : Z) :
  1 <= n -> 1 <= m <= 20 -> n * m <= 9007199254740992 ->
  get_root sequelize st (paged (Z_to_string n) (Z_to_string m))
  = respond 200
      (JObj [("Spots",
              JArr (map (listed st)
                      (firstn (Z.to_nat m)
                              (skipn (Z.to_nat ((n - 1) * m)) (spots st)))));
             ("page", JVal (int n));
             ("size", JVal (int m))]).
Proof.
  intros N [M1 M2] B.
  unfold get_root, get_root_try, paged; cbv zeta.
  cbn [Query.page Query.size Query.minLat Query.maxLat Query.minLng
       Query.maxLng Query.minPrice Query.maxPrice parseInt_param].
  destruct (decimal_reads_back n) as [-> _].
  destruct (decimal_reads_back m) as [-> _].
  rewrite (int_or_positive n 1 N), (int_or_positive m 20 M1).
  assert (P : (n <? 1) = false) by (apply Z.ltb_ge; lia).
  assert (S : (m <? 1) || (m >? 20) = false).
  { apply orb_false_iff; split; [apply Z.ltb_ge; lia|].
    rewrite Z.gtb_ltb. apply Z.ltb_ge; lia. }
  assert (R : Db.runs m ((n - 1) * m) = true).
  { unfold Db.runs, Db.max_int64.
    apply andb_true_iff; split; apply Z.leb_le; nia. }
  rewrite P, S. cbn [Query.param truthy andb bind].
  unfold Db.findAll. rewrite R. cbn [bind].
  unfold Db.window. rewrite map_map.
  change (filter (Where.holds Where.empty) (spots st))
    with (filter (fun _ : Spot.t => true) (spots st)).
  now rewrite filter_all.
Qed.

Lemma decimal_page_is_served_witness :
  get_root Sample.sequelize Sample.store
           (paged (Z_to_string 2) (Z_to_string 1))
  = respond 200
      (JObj [("Spots",
              JArr (map (listed Sample.store)
                      (firstn (Z.to_nat 1)
                              (skipn (Z.to_nat ((2 - 1) * 1))
                                     (spots Sample.store)))));
             ("page", JVal (int 2));
             ("size", JVal (int 1))]).
Proof.
  apply (decimal_page_is_served Sample.sequelize Sample.store 2 1); lia.
Defined.

(** A page too far for the store to count to is answered 500. *)
Example page_out_of_reach (st : Store) :
  get_root Sample.sequelize st (only_page "99999999999999999999999")
  = fetch_failed (Sequelize.refusal Sample.sequelize).
Proof. reflexivity. Qed.

End Texts.
